(** * GRANT statement execution (stmt/stmts/grant.go)

    A shallow embedding of [GrantStmt.Exec] and of the functions it calls,
    together with the properties the specification states about them.

    Go values are modelled as follows.
    - [string] is [String.string]; [strings.Split] is modelled for the
      one-byte separator the source passes ("@").
    - [mysql.PrivilegeType] is an integer type: [Z].
    - a pointer is an [option], [None] for [nil]; reading a field through
      a [nil] pointer is a run-time panic.
    - a Go [map] is a [gmap]; a [range] over a map visits every entry once
      in an order the language leaves unspecified, so the order is an
      explicit input ([MapRange]).
    - a function returning [(T, error)] returns [res T]; a panic of the Go
      runtime is the third constructor of [res]; [errors.Trace] keeps the
      error it annotates and is left out.
    - the session context [ctx] is the record [Context]; code that reads or
      writes the catalog through it lives in the state monad [M]. The
      scans and the statement executor behind [ctx] can fail. *)

From stdpp Require Import gmap strings list fin_maps.
From Stdlib Require Import ZArith Ascii.

Open Scope string_scope.
Open Scope list_scope.
Open Scope Z_scope.

Abbreviation PrivilegeType := Z.

(* ===================================================================== *)
(** ** Strings *)
(* ===================================================================== *)

(** [strings.Split(s, sep)] for a separator of one byte: the substrings
    between the separators, one more than there are separators. *)
Fixpoint Split (s : string) (sep : ascii) : list string :=
  match s with
  | EmptyString => [EmptyString]
  | String c s' =>
      if Ascii.eqb c sep then EmptyString :: Split s' sep
      else match Split s' sep with
           | [] => [String c EmptyString]
           | p :: ps => String c p :: ps
           end
  end.

(** Number of occurrences of a byte in a string. *)
Fixpoint Count (s : string) (sep : ascii) : nat :=
  match s with
  | EmptyString => O
  | String c s' => (if Ascii.eqb c sep then 1 else 0)%nat + Count s' sep
  end.

(** Lower-casing, byte by byte on the ASCII letters. *)
Definition ascii_ToLower (c : ascii) : ascii :=
  let n := nat_of_ascii c in
  if ((65 <=? n) && (n <=? 90))%nat then ascii_of_nat (n + 32) else c.

Fixpoint ToLower (s : string) : string :=
  match s with
  | EmptyString => EmptyString
  | String c s' => String (ascii_ToLower c) (ToLower s')
  end.

(* ===================================================================== *)
(** ** Types of the packages the statement imports *)
(* ===================================================================== *)

Module model.
(** Modelled from the spec: [model.CIStr] is declared outside the source
    file; a case-insensitive name, as written ([O]) and lower-cased ([L]),
    of which the source reads [O]. *)
Record CIStr : Type := { O : string; L : string }.

(** Modelled from the spec: [model.NewCIStr] is not part of the source
    file; a case-insensitive name keeps the text as written and its
    lower-cased form (here over the ASCII letters). *)
Definition NewCIStr (s : string) : CIStr := {| O := s; L := ToLower s |}.

(** Modelled from the spec: [model.DBInfo] is declared outside the source
    file; a schema of the catalog, of which the source reads the name. *)
Record DBInfo : Type := { Name : CIStr }.
End model.

Module coldef.
(** Modelled from the spec: [coldef.GrantLevel] and the constants of its
    [Level] field are declared outside the source file; the scope of a
    grant is global, database or table (spec 3). The source compares the
    [int] field with the three constants and sends every other value to
    the [default] branch of its [switch]: [GrantLevelOther]. *)
Inductive GrantLevelType : Type :=
| GrantLevelGlobal
| GrantLevelDB
| GrantLevelTable
| GrantLevelOther (code : Z).

Record GrantLevel : Type :=
  { Level : GrantLevelType; DBName : string; TableName : string }.

(** Modelled from the spec: [coldef.PrivElem] is declared outside the
    source file; a privilege kind and an optional column list (spec 3). *)
Record PrivElem : Type := { Priv : PrivilegeType; Cols : list string }.

(** Modelled from the spec: [coldef.UserSpecification] is declared outside
    the source file; the source reads its [User] field, the principal
    written name@host (spec 3). *)
Record UserSpecification : Type := { User : string }.
End coldef.

Module expression.
(** Modelled from the spec: the expressions of package expression and the
    operators of package opcode are declared outside the source file; the
    source builds identifiers, values, equalities and conjunctions. *)
Inductive Op : Type := EQ | AndAnd.

Inductive Expression : Type :=
| Ident (name : model.CIStr)
| Value (val : string)
| BinaryOperation (op : Op) (l r : Expression).

Definition NewBinaryOperation (op : Op) (l r : Expression) : Expression :=
  BinaryOperation op l r.

(** Modelled from the spec: [expression.Assignment] is declared outside
    the source file; a column and the value it is set to. *)
Record Assignment : Type := { ColName : string; Expr : string }.
End expression.

Module mysql.
(** Modelled from the spec: the table names of package mysqldef are
    declared outside the source file; the catalog tables of the system
    database are the user-privilege table ([mysql.UserTable]), the
    database-privilege table ([mysql.DBTable]) and the table-privilege
    table (spec 6). *)
Inductive Table : Type := UserTable | DBTable | TablePrivTable.

(** The tables [mysql.Priv2UserCol] and [mysql.AllDBPrivs] and the constant
    [mysql.AllPriv] are declared outside the source file; the development
    is parametric in them. *)
Class defs : Type :=
  { AllPriv : PrivilegeType;
    Priv2UserCol : gmap Z string;
    AllDBPrivs : list PrivilegeType }.
End mysql.

Import expression.

#[global] Instance Table_eq_dec : EqDecision mysql.Table.
Proof. solve_decision. Defined.

(* ===================================================================== *)
(** ** Errors, panics and results *)
(* ===================================================================== *)

(** One constructor per [errors.Errorf] of the source, with the argument
    its format string prints, and one for the errors that come back from
    the scans and from the statement executor. *)
Inductive error : Type :=
| ErrUnknownUser (user : string)             (* "Unknown user: %s" *)
| ErrUnknownGrantLevel (level : coldef.GrantLevel)
                                             (* "Unknown grant level: %s" *)
| ErrUnknownPriv (priv : PrivilegeType)      (* "Unknown priv: %s" *)
| ErrUnknownDBPrivilege (priv : PrivilegeType) (* "Unknown db privilege %s" *)
| ErrMissDBName              (* "Miss DB name in grant db scope privilege." *)
| ErrUnknownSchema (dbName : string)         (* "Unknown schema name: %s" *)
| ErrStore (msg : string).   (* returned by a scan or by the executor *)

(** Run-time panics of the Go runtime that the source can raise: an index
    out of the range of a slice, and a field read through a [nil]
    pointer. *)
Inductive panic : Type :=
| IndexOutOfRange (index len : nat)
| NilDereference.

Inductive res (A : Type) : Type :=
| Ok (a : A)
| Err (e : error)
| Panic (p : panic).
Arguments Ok {A} a.
Arguments Err {A} e.
Arguments Panic {A} p.

(** [strs[i]]: indexing a slice panics out of range. *)
Definition index {A} (strs : list A) (i : nat) : res A :=
  match strs !! i with
  | Some x => Ok x
  | None => Panic (IndexOutOfRange i (List.length strs))
  end.

(** [p.f]: reading a field through a pointer panics when it is [nil]. *)
Definition deref {A} (p : option A) : res A :=
  match p with
  | Some x => Ok x
  | None => Panic NilDereference
  end.

(** [GrantStmt] grants privilege to user account. [Level] and the elements
    of [Privs] and [Users] are pointers. The methods below are embedded for
    a receiver that points to a statement. *)
Record GrantStmt : Type :=
  { Privs : list (option coldef.PrivElem);
    ObjectType : Z;
    Level : option coldef.GrantLevel;
    Users : list (option coldef.UserSpecification);
    Text : string }.

(** The statements the source builds and hands to the executor. *)
Inductive Statement : Type :=
| InsertIntoStmt (TableIdent : mysql.Table) (ColNames : list string)
                 (Lists : list (list string))
| UpdateStmt (TableRefs : mysql.Table) (List_ : list Assignment)
             (Where : Expression).

(* ===================================================================== *)
(** ** Privilege kind to column assignments *)
(* ===================================================================== *)

(** [MapRange m iter]: [iter] is an order in which a [range] over the map
    [m] can visit its entries. *)
Definition MapRange (m : gmap Z string) (iter : list (Z * string)) : Prop :=
  iter ≡ₚ map_to_list m.

Section Compose.
Context {defs : mysql.defs}.

(** The loop of [composeGlobalPrivUpdate],
    [for _, v := range mysql.Priv2UserCol { ... append(assigns, a) }],
    run over the entries in the order [iter] the range yields them. *)
Fixpoint composeGlobalPrivUpdate_loop (iter : list (Z * string))
    (assigns : list Assignment) : list Assignment :=
  match iter with
  | [] => assigns
  | (_, v) :: iter' =>
      let a := {| ColName := v; Expr := "Y" |} in
      composeGlobalPrivUpdate_loop iter' (assigns ++ [a])
  end.

Definition composeGlobalPrivUpdate (iter : list (Z * string))
    (priv : PrivilegeType) : res (list Assignment) :=
  if decide (priv = mysql.AllPriv) then
    Ok (composeGlobalPrivUpdate_loop iter [])
  else
    match mysql.Priv2UserCol !! priv with
    | None => Err (ErrUnknownPriv priv)
    | Some col => Ok [ {| ColName := col; Expr := "Y" |} ]
    end.

(** The loop of [composeDBPrivUpdate] over the slice [mysql.AllDBPrivs]. *)
Fixpoint composeDBPrivUpdate_loop (priv : PrivilegeType)
    (ps : list PrivilegeType) (assigns : list Assignment)
    : res (list Assignment) :=
  match ps with
  | [] => Ok assigns
  | p :: ps' =>
      match mysql.Priv2UserCol !! p with
      | None => Err (ErrUnknownDBPrivilege priv)
      | Some v =>
          let a := {| ColName := v; Expr := "Y" |} in
          composeDBPrivUpdate_loop priv ps' (assigns ++ [a])
      end
  end.

Definition composeDBPrivUpdate (priv : PrivilegeType)
    : res (list Assignment) :=
  if decide (priv = mysql.AllPriv) then
    composeDBPrivUpdate_loop priv mysql.AllDBPrivs []
  else
    match mysql.Priv2UserCol !! priv with
    | None => Err (ErrUnknownPriv priv)
    | Some col => Ok [ {| ColName := col; Expr := "Y" |} ]
    end.

End Compose.

(* ===================================================================== *)
(** ** The session context and the catalog behind it *)
(* ===================================================================== *)

(** A catalog row: the stored value of each column, by column name. *)
Abbreviation Row := (gmap string string).

(** Modelled from the spec: the calls the source makes into the scan
    interface and the statement executor, which are not part of the source
    file (spec 6). *)
Inductive Operation : Type :=
| OpPlan (t : mysql.Table)
| OpWherePlan (Src : list Row) (Expr_ : Expression)
| OpNext (p : list Row)
| OpExec (st : Statement).

(** Modelled from the spec: [context.Context] is declared outside the
    source file. What the code reaches through [ctx] (spec 6): the
    session's current schema, the schema catalog, the columns and the rows
    of the catalog tables, the statements handed to the executor so far
    (oldest first), and the answer of the store to each call: an error
    text, or [None] when the call goes through. The answer is a function of
    the call and of the rows the tables hold at that moment. The last two
    fields give the iteration order the Go runtime picks for the range over
    [mysql.Priv2UserCol] in each successive call of
    [composeGlobalPrivUpdate]. *)
Record Context : Type :=
  { CurrentSchema : string;
    InfoSchema : gmap string model.DBInfo;
    Columns : mysql.Table -> list string;
    UserRows : list Row;
    DBRows : list Row;
    TablePrivRows : list Row;
    Executed : list Statement;
    StoreFault : Operation -> (mysql.Table -> list Row) -> option string;
    mapiter : nat -> list (Z * string);
    mapiterCount : nat }.

Definition rows (t : mysql.Table) (ctx : Context) : list Row :=
  match t with
  | mysql.UserTable => UserRows ctx
  | mysql.DBTable => DBRows ctx
  | mysql.TablePrivTable => TablePrivRows ctx
  end.

Definition set_rows (t : mysql.Table) (rs : list Row) (ctx : Context)
    : Context :=
  {| CurrentSchema := CurrentSchema ctx;
     InfoSchema := InfoSchema ctx;
     Columns := Columns ctx;
     UserRows := if decide (t = mysql.UserTable) then rs else UserRows ctx;
     DBRows := if decide (t = mysql.DBTable) then rs else DBRows ctx;
     TablePrivRows :=
       if decide (t = mysql.TablePrivTable) then rs else TablePrivRows ctx;
     Executed := Executed ctx;
     StoreFault := StoreFault ctx;
     mapiter := mapiter ctx;
     mapiterCount := mapiterCount ctx |}.

Definition record (st : Statement) (ctx : Context) : Context :=
  {| CurrentSchema := CurrentSchema ctx;
     InfoSchema := InfoSchema ctx;
     Columns := Columns ctx;
     UserRows := UserRows ctx;
     DBRows := DBRows ctx;
     TablePrivRows := TablePrivRows ctx;
     Executed := Executed ctx ++ [st];
     StoreFault := StoreFault ctx;
     mapiter := mapiter ctx;
     mapiterCount := mapiterCount ctx |}.

Definition next_range (ctx : Context) : Context :=
  {| CurrentSchema := CurrentSchema ctx;
     InfoSchema := InfoSchema ctx;
     Columns := Columns ctx;
     UserRows := UserRows ctx;
     DBRows := DBRows ctx;
     TablePrivRows := TablePrivRows ctx;
     Executed := Executed ctx;
     StoreFault := StoreFault ctx;
     mapiter := mapiter ctx;
     mapiterCount := S (mapiterCount ctx) |}.

(** The answer of the store to a call made in the context [ctx]. *)
Definition fault (op : Operation) (ctx : Context) : option string :=
  StoreFault ctx op (fun t => rows t ctx).

(** Code that takes [ctx] and returns [(T, error)]: a state and error
    monad. A failure keeps the context reached so far: nothing is rolled
    back. *)
Definition M (A : Type) : Type := Context -> res A * Context.

#[global] Instance M_ret : MRet M := fun A a ctx => (Ok a, ctx).

#[global] Instance M_bind : MBind M := fun A B f m ctx =>
  match m ctx with
  | (Ok a, ctx') => f a ctx'
  | (Err e, ctx') => (Err e, ctx')
  | (Panic p, ctx') => (Panic p, ctx')
  end.

(** [return nil, errors.Errorf(...)]. *)
Definition Errorf {A} (e : error) : M A := fun ctx => (Err e, ctx).

(** A step that does not touch the context. *)
Definition lift {A} (r : res A) : M A := fun ctx => (r, ctx).

(** [for _, x := range xs { if err := body(x); err != nil { return err } }]
    over a slice. *)
Fixpoint forEach {A} (xs : list A) (body : A -> M unit) : M unit :=
  match xs with
  | [] => mret tt
  | x :: xs' => body x ;; forEach xs' body
  end.

(** The order in which the next call of [composeGlobalPrivUpdate] would
    range over [mysql.Priv2UserCol]. *)
Definition rangePriv2UserCol : M (list (Z * string)) := fun ctx =>
  (Ok (mapiter ctx (mapiterCount ctx)), next_range ctx).

(* ===================================================================== *)
(** ** The executor: scans, UPDATE and INSERT *)
(* ===================================================================== *)

(** The executor and the storage below it are outside the source file.
    Every call into them can come back with an error, as [StoreFault]
    says; a call that goes through behaves as the specification describes
    (4.4, 4.5, 6). *)

Inductive Datum : Type := DString (s : string) | DBool (b : bool) | DNull.

(** Modelled from the spec: the expression evaluator is not part of the
    source file; a filter is an equality of a column with a value, or a
    conjunction of filters (spec 4.4). *)
Fixpoint Eval (e : Expression) (row : Row) : Datum :=
  match e with
  | Ident name =>
      match row !! model.O name with Some v => DString v | None => DNull end
  | Value val => DString val
  | BinaryOperation EQ l r =>
      match Eval l row, Eval r row with
      | DString a, DString b => DBool (bool_decide (a = b))
      | DBool a, DBool b => DBool (bool_decide (a = b))
      | _, _ => DNull
      end
  | BinaryOperation AndAnd l r =>
      match Eval l row, Eval r row with
      | DBool a, DBool b => DBool (a && b)
      | _, _ => DNull
      end
  end.

Definition matches (where_ : Expression) (row : Row) : bool :=
  match Eval where_ row with DBool true => true | _ => false end.

(** Modelled from the spec: the scan interface ([Plan], [Next], [Close]) is
    not part of the source file; a plan over a table yields its rows, a
    [WhereRset] plan those that satisfy the filter, [Next] the first row
    left or [nil]; each of them can fail; [Close] releases the cursor and
    changes nothing of the catalog (spec 4.4, 6). *)
Definition JoinRset_Plan (t : mysql.Table) : M (list Row) := fun ctx =>
  match fault (OpPlan t) ctx with
  | Some msg => (Err (ErrStore msg), ctx)
  | None => (Ok (rows t ctx), ctx)
  end.

Definition WhereRset_Plan (Src : list Row) (Expr_ : Expression)
    : M (list Row) := fun ctx =>
  match fault (OpWherePlan Src Expr_) ctx with
  | Some msg => (Err (ErrStore msg), ctx)
  | None => (Ok (filter (fun row => matches Expr_ row = true) Src), ctx)
  end.

Definition Plan_Next (p : list Row) : M (option Row) := fun ctx =>
  match fault (OpNext p) ctx with
  | Some msg => (Err (ErrStore msg), ctx)
  | None => (Ok (head p), ctx)
  end.

Definition set_columns (asgns : list Assignment) (row : Row) : Row :=
  foldl (fun r a => <[ColName a := Expr a]> r) row asgns.

(** The table and the columns a statement names. *)
Definition target (st : Statement) : mysql.Table * list string :=
  match st with
  | InsertIntoStmt t cols _ => (t, cols)
  | UpdateStmt t asgns _ => (t, ColName <$> asgns)
  end.

(** Modelled from the spec: whether the executor runs a statement. It
    refuses a statement that names a column its table does not have (the
    columns of the tables are fixed, spec 6), and otherwise answers as the
    store does (spec 5, 6). *)
Definition accepts (st : Statement) (ctx : Context) : res unit :=
  if decide (Forall (fun c => c ∈ Columns ctx (target st).1) (target st).2)
  then match fault (OpExec st) ctx with
       | Some msg => Err (ErrStore msg)
       | None => Ok tt
       end
  else Err (ErrStore "unknown column").

(** Modelled from the spec: [UpdateStmt.Exec] is not part of the source
    file; when the executor runs the statement it sets each named column
    in the rows the filter selects, and no selected row is not an error;
    when it does not, it returns the error and no row changes
    (spec 4.5). *)
Definition UpdateStmt_Exec (TableRefs : mysql.Table)
    (List_ : list Assignment) (Where : Expression) : M unit := fun ctx =>
  let st := UpdateStmt TableRefs List_ Where in
  match accepts st ctx with
  | Ok _ =>
      let rs := (fun row => if matches Where row then set_columns List_ row
                            else row) <$> rows TableRefs ctx in
      (Ok tt, record st (set_rows TableRefs rs ctx))
  | Err e => (Err e, record st ctx)
  | Panic p => (Panic p, record st ctx)
  end.

(** Modelled from the spec: [InsertIntoStmt.Exec] is not part of the source
    file; when the executor runs the statement it adds one row per value
    list, holding the named columns, every other column being left at its
    default; when it does not, it returns the error and no row is added
    (spec 4.5, 5). *)
Definition InsertIntoStmt_Exec (TableIdent : mysql.Table)
    (ColNames : list string) (Lists : list (list string)) : M unit :=
  fun ctx =>
  let st := InsertIntoStmt TableIdent ColNames Lists in
  match accepts st ctx with
  | Ok _ =>
      let new := (fun vs => list_to_map (zip ColNames vs) : Row) <$> Lists in
      (Ok tt, record st (set_rows TableIdent (rows TableIdent ctx ++ new) ctx))
  | Err e => (Err e, record st ctx)
  | Panic p => (Panic p, record st ctx)
  end.

(** Modelled from the spec: [db.GetCurrentSchema] and
    [InfoSchema.SchemaByName] are not part of the source file; the first
    reads the session's current schema, possibly empty, the second looks a
    name up in the schema catalog, without regard to case (spec 6). *)
Definition GetCurrentSchema : M string := fun ctx =>
  (Ok (CurrentSchema ctx), ctx).

Definition SchemaByName (schema : model.CIStr) : M (option model.DBInfo) :=
  fun ctx => (Ok (InfoSchema ctx !! model.L schema), ctx).

(* ===================================================================== *)
(** ** Existence checks *)
(* ===================================================================== *)

(** Modelled from the spec: [composeUserTableFilter], [composeUserTableRset]
    and [userExists] are not part of the source file; the filter is
    equality on user and host, the row set is the user table, and the check
    tests whether the filtered scan yields at least one row (spec 4.4). *)
Definition composeUserTableFilter (name host : string) : Expression :=
  let nameMatch :=
    NewBinaryOperation EQ (Ident (model.NewCIStr "User")) (Value name) in
  let hostMatch :=
    NewBinaryOperation EQ (Ident (model.NewCIStr "Host")) (Value host) in
  NewBinaryOperation AndAnd nameMatch hostMatch.

Definition composeUserTableRset : mysql.Table := mysql.UserTable.

Definition userExists (name host : string) : M bool :=
  let r := composeUserTableRset in
  p ← JoinRset_Plan r;
  p ← WhereRset_Plan p (composeUserTableFilter name host);
  row ← Plan_Next p;
  mret (bool_decide (row ≠ None)).

Definition composeDBTableFilter (name host db : string) : Expression :=
  let dbMatch :=
    NewBinaryOperation EQ (Ident (model.NewCIStr "DB")) (Value db) in
  NewBinaryOperation AndAnd (composeUserTableFilter name host) dbMatch.

Definition composeDBTableRset : mysql.Table := mysql.DBTable.

Definition dbUserExists (name host db : string) : M bool :=
  let r := composeDBTableRset in
  p ← JoinRset_Plan r;
  p ← WhereRset_Plan p (composeDBTableFilter name host db);
  row ← Plan_Next p;
  mret (bool_decide (row ≠ None)).

(* ===================================================================== *)
(** ** The statement *)
(* ===================================================================== *)

Definition getTargetSchema (s : GrantStmt) : M model.DBInfo :=
  level ← lift (deref (Level s));
  let dbName := coldef.DBName level in
  dbName ← (if decide (String.length dbName = 0%nat)
            then GetCurrentSchema else mret dbName);
  if decide (String.length dbName = 0%nat) then Errorf ErrMissDBName
  else
    let schema := model.NewCIStr dbName in
    found ← SchemaByName schema;
    match found with
    | None => Errorf (ErrUnknownSchema dbName)
    | Some db => mret db
    end.

Definition initDBPrivEntry (user host db : string) : M unit :=
  InsertIntoStmt_Exec mysql.DBTable ["Host"; "User"; "DB"]
                      [[host; user; db]].

Definition checkAndInitDBPriv (s : GrantStmt) (user host : string)
    : M unit :=
  db ← getTargetSchema s;
  ok ← dbUserExists user host (model.O (model.Name db));
  if (ok : bool) then mret tt
  else initDBPrivEntry user host (model.O (model.Name db)).

Section Grant.
Context {defs : mysql.defs}.

(** Manipulate mysql.user table. *)
Definition grantGlobalPriv (s : GrantStmt) (priv : option coldef.PrivElem)
    (user : option coldef.UserSpecification) : M unit :=
  priv_ ← lift (deref priv);
  iter ← rangePriv2UserCol;
  asgns ← lift (composeGlobalPrivUpdate iter (coldef.Priv priv_));
  user_ ← lift (deref user);
  let strs := Split (coldef.User user_) "@" in
  userName ← lift (index strs 0);
  host ← lift (index strs 1);
  UpdateStmt_Exec composeUserTableRset asgns
                  (composeUserTableFilter userName host).

(** Manipulate mysql.db table. *)
Definition grantDBPriv (s : GrantStmt) (priv : option coldef.PrivElem)
    (user : option coldef.UserSpecification) : M unit :=
  db ← getTargetSchema s;
  priv_ ← lift (deref priv);
  asgns ← lift (composeDBPrivUpdate (coldef.Priv priv_));
  user_ ← lift (deref user);
  let strs := Split (coldef.User user_) "@" in
  userName ← lift (index strs 0);
  host ← lift (index strs 1);
  UpdateStmt_Exec composeDBTableRset asgns
    (composeDBTableFilter userName host (model.O (model.Name db))).

(** Manipulate mysql.tables_priv table. *)
Definition grantTablePriv (s : GrantStmt) (priv : option coldef.PrivElem)
    (user : option coldef.UserSpecification) : M unit :=
  mret tt.

Definition grantPriv (s : GrantStmt) (priv : option coldef.PrivElem)
    (user : option coldef.UserSpecification) : M unit :=
  level ← lift (deref (Level s));
  match coldef.Level level with
  | coldef.GrantLevelGlobal => grantGlobalPriv s priv user
  | coldef.GrantLevelDB => grantDBPriv s priv user
  | coldef.GrantLevelTable => grantTablePriv s priv user
  | coldef.GrantLevelOther _ => Errorf (ErrUnknownGrantLevel level)
  end.

(** The body of the loop of [Exec]: grant for one user. *)
Definition Exec_user (s : GrantStmt) (user : option coldef.UserSpecification)
    : M unit :=
  user_ ← lift (deref user);
  let strs := Split (coldef.User user_) "@" in
  userName ← lift (index strs 0);
  host ← lift (index strs 1);
  exists_ ← userExists userName host;
  if negb (exists_ : bool) then Errorf (ErrUnknownUser (coldef.User user_))
  else
    level ← lift (deref (Level s));
    (match coldef.Level level with
     | coldef.GrantLevelDB => checkAndInitDBPriv s userName host
     | _ => mret tt
     end : M unit);;
    forEach (Privs s) (fun priv => grantPriv s priv user).

(** [Exec] implements the stmt.Statement Exec interface. The record set it
    returns is always [nil]; the model returns the error only. *)
Definition Exec (s : GrantStmt) : M unit :=
  forEach (Users s) (Exec_user s).

End Grant.

(** [IsDDL] implements the stmt.Statement IsDDL interface. *)
Definition IsDDL (s : GrantStmt) : bool := true.

(** [OriginText] implements the stmt.Statement OriginText interface. *)
Definition OriginText (s : GrantStmt) : string := Text s.

(** [SetText] implements the stmt.Statement SetText interface: the
    assignment [s.Text = text] through the pointer receiver gives the
    statement with that one field replaced. *)
Definition SetText (s : GrantStmt) (text : string) : GrantStmt :=
  {| Privs := Privs s;
     ObjectType := ObjectType s;
     Level := Level s;
     Users := Users s;
     Text := text |}.

(** [Explain] implements the stmt.Statement Explain interface:
    [w.Format("%s\n", s.Text)]. The formatter is modelled by the text
    written to it so far. *)
Definition Explain (s : GrantStmt) (w : string) : string :=
  w +:+ Text s +:+ String (ascii_of_nat 10) "".

(* ===================================================================== *)
(** ** Vocabulary of the properties *)
(* ===================================================================== *)

(** The assignment of the affirmative value to a column. *)
Definition assignY (col : string) : Assignment :=
  {| ColName := col; Expr := "Y" |}.

(** Two results of the column mapper that agree up to the order of the
    assignments. *)
Inductive same_assignments
    : res (list Assignment) -> res (list Assignment) -> Prop :=
| same_Ok l k : l ≡ₚ k -> same_assignments (Ok l) (Ok k)
| same_Err e : same_assignments (Err e) (Err e).

Definition is_update (st : Statement) : Prop :=
  match st with UpdateStmt _ _ _ => True | InsertIntoStmt _ _ _ => False end.

(** [row'] is [row] with some columns assigned. *)
Definition row_updated (row row' : Row) : Prop :=
  exists asgns, row' = set_columns asgns row.

(** [updated ctx ctx']: from [ctx] to [ctx'] only UPDATE statements were
    handed to the executor, and every table holds the rows it held, each
    with some columns assigned; no row was added or removed. *)
Record updated (ctx ctx' : Context) : Prop :=
  { updated_Executed :
      exists tr : list Statement,
        Executed ctx' = Executed ctx ++ tr /\ Forall is_update tr;
    updated_rows :
      forall t, Forall2 row_updated (rows t ctx) (rows t ctx') }.

(** [keeps R m]: running [m] relates the context before to the context
    after by [R], whatever the outcome. *)
Definition keeps (R : relation Context) {A} (m : M A) : Prop :=
  forall ctx, R ctx (m ctx).2.

(** Running [m] never ends in a panic. *)
Definition no_panic {A} (m : M A) : Prop :=
  forall ctx p, (m ctx).1 <> Panic p.

(** The store lets through the three calls of a scan of the table [t]
    under the filter [where_]: the plan of the table, the plan of the
    filter, and the read of the first row. *)
Definition scan_ok (t : mysql.Table) (where_ : Expression) (ctx : Context)
    : Prop :=
  fault (OpPlan t) ctx = None /\
  fault (OpWherePlan (rows t ctx) where_) ctx = None /\
  fault (OpNext (filter (fun row => matches where_ row = true) (rows t ctx)))
        ctx = None.

(** The scan [userExists] and [dbUserExists] both make: the plan of the
    table, the plan of the filter over it, and the read of the first
    row. *)
Definition scan (t : mysql.Table) (where_ : Expression) : M bool :=
  p ← JoinRset_Plan t;
  p ← WhereRset_Plan p where_;
  row ← Plan_Next p;
  mret (bool_decide (row ≠ None)).

(** The answer of a scan that goes through: whether a row of the table
    satisfies the filter. *)
Definition found (t : mysql.Table) (where_ : Expression) (ctx : Context)
    : bool :=
  bool_decide
    (head (filter (fun row => matches where_ row = true) (rows t ctx))
     ≠ None).

(** The executor runs the statement [st] in the context [ctx]. *)
Definition exec_ok (st : Statement) (ctx : Context) : Prop :=
  accepts st ctx = Ok tt.

(** The INSERT of [initDBPrivEntry]. *)
Definition insert_db_row (host user db : string) : Statement :=
  InsertIntoStmt mysql.DBTable ["Host"; "User"; "DB"] [[host; user; db]].

(** [user] points to a principal string that splits into at least a name
    and a host, and the user table of [ctx] holds a row for them. *)
Definition principal_exists (ctx : Context)
    (user : option coldef.UserSpecification) : Prop :=
  exists u name host more,
    user = Some u /\
    Split (coldef.User u) "@" = name :: host :: more /\
    (userExists name host ctx).1 = Ok true.

(** An outcome that leaves the context as it was and is a success, the
    error "Unknown user", an error of the store, or a panic. *)
Definition quiet (ctx : Context) (out : res unit * Context) : Prop :=
  out.2 = ctx /\
  (out.1 = Ok tt \/ (exists user, out.1 = Err (ErrUnknownUser user)) \/
   (exists msg, out.1 = Err (ErrStore msg)) \/
   exists p, out.1 = Panic p).

(** The row an INSERT of the columns Host, User and DB creates: it holds
    no privilege column. *)
Definition default_row (host user db : string) : Row :=
  list_to_map [("Host", host); ("User", user); ("DB", db)].

(** The target schema of a database-scope grant as the specification words
    it (4.2): an empty database name is replaced by the current schema; a
    name still empty is MissingSchema; a name the schema catalog does not
    hold is UnknownSchema. *)
Definition TargetSchema_spec (level : coldef.GrantLevel) (ctx : Context)
    : res model.DBInfo :=
  let name :=
    if decide (coldef.DBName level = "") then CurrentSchema ctx
    else coldef.DBName level in
  if decide (name = "") then Err ErrMissDBName
  else match InfoSchema ctx !! ToLower name with
       | Some schema => Ok schema
       | None => Err (ErrUnknownSchema name)
       end.

(** The columns that identify a row of the database-privilege table. *)
Definition key_columns : list string := ["Host"; "User"; "DB"].

(** The database-privilege table of [ctx] holds a row for the principal
    and the database. *)
Definition has_db_row (name host db : string) (ctx : Context) : Prop :=
  exists row : Row,
    row ∈ DBRows ctx /\
    row !! "User" = Some name /\ row !! "Host" = Some host /\
    row !! "DB" = Some db.

(** What the session and the schema catalog hold is the same in both
    contexts. *)
Definition session_kept (ctx ctx' : Context) : Prop :=
  CurrentSchema ctx' = CurrentSchema ctx /\
  InfoSchema ctx' = InfoSchema ctx.

(** The rows of the tables in [ts] are the same in both contexts, and so
    are the session and the schema catalog. *)
Definition tables_kept (ts : list mysql.Table) (ctx ctx' : Context) : Prop :=
  session_kept ctx ctx' /\ forall t, t ∈ ts -> rows t ctx' = rows t ctx.

(** A level one of the cases of [grantPriv] names. *)
Definition known_level (l : coldef.GrantLevelType) : Prop :=
  match l with coldef.GrantLevelOther _ => False | _ => True end.

(** Two grant levels that agree on what [Exec] reads of them: the level
    and the database name, and the table name when the level is none
    that [grantPriv] names (the whole level is then printed in the
    error). *)
Definition same_level (l1 l2 : coldef.GrantLevel) : Prop :=
  coldef.Level l1 = coldef.Level l2 /\
  coldef.DBName l1 = coldef.DBName l2 /\
  (known_level (coldef.Level l1) \/ coldef.TableName l1 = coldef.TableName l2).

(** The kind of the privilege element [priv] points to. *)
Definition kind (priv : option coldef.PrivElem) : option PrivilegeType :=
  coldef.Priv <$> priv.

(** Two statements that agree on what [Exec] reads: the grant level, the
    users, and the kinds of the privilege elements; a [nil] pointer in the
    one is a [nil] pointer in the other. *)
Definition same_request (s1 s2 : GrantStmt) : Prop :=
  option_Forall2 same_level (Level s1) (Level s2) /\
  Users s1 = Users s2 /\
  kind <$> Privs s1 = kind <$> Privs s2.

(** The statement [s] with the list of users replaced. *)
Definition with_Users (s : GrantStmt)
    (users : list (option coldef.UserSpecification)) : GrantStmt :=
  {| Privs := Privs s;
     ObjectType := ObjectType s;
     Level := Level s;
     Users := users;
     Text := Text s |}.

(** A row for the principal and the database that [ctx] holds is still
    held by [ctx']. *)
Definition row_stays (name host db : string) (ctx ctx' : Context) : Prop :=
  has_db_row name host db ctx -> has_db_row name host db ctx'.

(** No privilege column of the table is one of the key columns. *)
Definition privilege_columns_off_key {defs : mysql.defs} : Prop :=
  forall p col, mysql.Priv2UserCol !! p = Some col -> col ∉ key_columns.

(* ===================================================================== *)
(** ** An instance of the privilege tables, and a small catalog *)
(* ===================================================================== *)

(** Privilege tables of the shape the specification describes (3, 6): one
    column per global privilege, and the database privileges a strict
    subset of the global ones. Used to run the model on concrete requests;
    no general statement below depends on it. *)
Module sample.
Definition CreatePriv : PrivilegeType := 1.
Definition SelectPriv : PrivilegeType := 2.
Definition InsertPriv : PrivilegeType := 3.
Definition UpdatePriv : PrivilegeType := 4.
Definition DeletePriv : PrivilegeType := 5.
Definition ShowDBPriv : PrivilegeType := 6.
Definition CreateUserPriv : PrivilegeType := 7.
Definition DropPriv : PrivilegeType := 8.
Definition GrantPriv : PrivilegeType := 9.
Definition AlterPriv : PrivilegeType := 10.
Definition ExecutePriv : PrivilegeType := 11.
Definition IndexPriv : PrivilegeType := 12.
Definition AllPriv : PrivilegeType := 13.

Definition columns : list (Z * string) :=
  [ (CreatePriv, "Create_priv"); (SelectPriv, "Select_priv");
    (InsertPriv, "Insert_priv"); (UpdatePriv, "Update_priv");
    (DeletePriv, "Delete_priv"); (ShowDBPriv, "Show_db_priv");
    (CreateUserPriv, "Create_user_priv"); (DropPriv, "Drop_priv");
    (GrantPriv, "Grant_priv"); (AlterPriv, "Alter_priv");
    (ExecutePriv, "Execute_priv"); (IndexPriv, "Index_priv") ].

Definition defs : mysql.defs :=
  {| mysql.AllPriv := AllPriv;
     mysql.Priv2UserCol := list_to_map columns;
     mysql.AllDBPrivs :=
       [ SelectPriv; InsertPriv; UpdatePriv; DeletePriv; CreatePriv;
         DropPriv; GrantPriv; AlterPriv; ExecutePriv; IndexPriv ] |}.

Definition user_row (name host : string) : Row :=
  {[ "Host" := host; "User" := name ]}.

Definition db1 : model.DBInfo := {| model.Name := model.NewCIStr "db1" |}.

(** The columns of the catalog tables (spec 6): the user table has a
    column for each privilege, the database-privilege table for each
    database privilege. *)
Definition table_columns (t : mysql.Table) : list string :=
  match t with
  | mysql.UserTable => ["Host"; "User"] ++ columns.*2
  | mysql.DBTable =>
      ["Host"; "User"; "DB"; "Select_priv"; "Insert_priv"; "Update_priv";
       "Delete_priv"; "Create_priv"; "Drop_priv"; "Grant_priv";
       "Alter_priv"; "Execute_priv"; "Index_priv"]
  | mysql.TablePrivTable => ["Host"; "User"; "DB"; "Table_name"]
  end.

(** A session with no current schema, the schema [db1], the users
    [alice@%] and [bob@localhost], no database privilege row, and a store
    that lets every call through. *)
Definition ctx0 : Context :=
  {| CurrentSchema := "";
     InfoSchema := {[ "db1" := db1 ]};
     Columns := table_columns;
     UserRows := [ user_row "alice" "%"; user_row "bob" "localhost" ];
     DBRows := [];
     TablePrivRows := [];
     Executed := [];
     StoreFault := fun _ _ => None;
     mapiter := fun _ => columns;
     mapiterCount := 0 |}.

(** The same session over a store that fails every scan of the
    database-privilege table. *)
Definition ctx_unreadable : Context :=
  {| CurrentSchema := "";
     InfoSchema := {[ "db1" := db1 ]};
     Columns := table_columns;
     UserRows := [ user_row "alice" "%"; user_row "bob" "localhost" ];
     DBRows := [];
     TablePrivRows := [];
     Executed := [];
     StoreFault := fun op _ =>
       match op with
       | OpPlan mysql.DBTable => Some "table is not readable"
       | _ => None
       end;
     mapiter := fun _ => columns;
     mapiterCount := 0 |}.

(** The same session over a store that keeps the rows of the
    database-privilege table unique: it refuses the INSERT of a row whose
    Host, User and DB are those of a row it holds. *)
Definition ctx_unique : Context :=
  {| CurrentSchema := "";
     InfoSchema := {[ "db1" := db1 ]};
     Columns := table_columns;
     UserRows := [ user_row "alice" "%"; user_row "bob" "localhost" ];
     DBRows := [];
     TablePrivRows := [];
     Executed := [];
     StoreFault := fun op tables =>
       match op with
       | OpExec (InsertIntoStmt mysql.DBTable cols [vals]) =>
           let new : Row := list_to_map (zip cols vals) in
           if bool_decide
                (Exists (fun row : Row =>
                           row !! "Host" = new !! "Host" /\
                           row !! "User" = new !! "User" /\
                           row !! "DB" = new !! "DB")
                        (tables mysql.DBTable))
           then Some "duplicate entry" else None
       | _ => None
       end;
     mapiter := fun _ => columns;
     mapiterCount := 0 |}.

Definition grant (privs : list PrivilegeType) (level : coldef.GrantLevel)
    (users : list string) : GrantStmt :=
  {| Privs :=
       (fun p => Some {| coldef.Priv := p; coldef.Cols := [] |}) <$> privs;
     ObjectType := 0;
     Level := Some level;
     Users := (fun u => Some {| coldef.User := u |}) <$> users;
     Text := "" |}.

Definition onGlobal : coldef.GrantLevel :=
  {| coldef.Level := coldef.GrantLevelGlobal;
     coldef.DBName := ""; coldef.TableName := "" |}.
Definition onDB (db : string) : coldef.GrantLevel :=
  {| coldef.Level := coldef.GrantLevelDB;
     coldef.DBName := db; coldef.TableName := "" |}.
Definition onTable (db tbl : string) : coldef.GrantLevel :=
  {| coldef.Level := coldef.GrantLevelTable;
     coldef.DBName := db; coldef.TableName := tbl |}.
Definition onOther (code : Z) : coldef.GrantLevel :=
  {| coldef.Level := coldef.GrantLevelOther code;
     coldef.DBName := ""; coldef.TableName := "" |}.
End sample.

(* ===================================================================== *)
(** ** The model at work *)
(* ===================================================================== *)

Example Split_alice : Split "alice@%" "@" = ["alice"; "%"].
Proof. reflexivity. Qed.
Example Split_none : Split "root" "@" = ["root"].
Proof. reflexivity. Qed.
Example Split_many : Split "a@b@c" "@" = ["a"; "b"; "c"].
Proof. reflexivity. Qed.
Example Split_empty : Split "" "@" = [""].
Proof. reflexivity. Qed.

Example getTargetSchema_named :
  getTargetSchema (sample.grant [] (sample.onDB "DB1") []) sample.ctx0
  = (Ok sample.db1, sample.ctx0).
Proof. reflexivity. Qed.
Example getTargetSchema_missing :
  getTargetSchema (sample.grant [] (sample.onDB "") []) sample.ctx0
  = (Err ErrMissDBName, sample.ctx0).
Proof. reflexivity. Qed.
Example getTargetSchema_unknown :
  getTargetSchema (sample.grant [] (sample.onDB "nodb") []) sample.ctx0
  = (Err (ErrUnknownSchema "nodb"), sample.ctx0).
Proof. reflexivity. Qed.

(* ===================================================================== *)
(** ** The column mapper *)
(* ===================================================================== *)

Lemma composeGlobalPrivUpdate_loop_eq (iter : list (Z * string))
    (assigns : list Assignment) :
  composeGlobalPrivUpdate_loop iter assigns
  = assigns ++ ((fun kv => assignY kv.2) <$> iter).
Proof.
  revert assigns.
  induction iter as [|[k v] iter IH]; intros assigns; simpl.
  - by rewrite app_nil_r.
  - rewrite IH, <- app_assoc. reflexivity.
Qed.

Lemma set_columns_app (a1 a2 : list Assignment) (row : Row) :
  set_columns (a1 ++ a2) row = set_columns a2 (set_columns a1 row).
Proof. unfold set_columns. apply foldl_app. Qed.


Section Mapper.
Context {defs : mysql.defs}.

Lemma composeDBPrivUpdate_loop_eq (priv : PrivilegeType)
    (ps : list PrivilegeType) (assigns : list Assignment) :
  composeDBPrivUpdate_loop priv ps assigns
  = match mapM (fun p => mysql.Priv2UserCol !! p) ps with
    | Some cols => Ok (assigns ++ (assignY <$> cols))
    | None => Err (ErrUnknownDBPrivilege priv)
    end.
Proof.
  revert assigns.
  induction ps as [|p ps IH]; intros assigns; simpl.
  - by rewrite app_nil_r.
  - destruct (mysql.Priv2UserCol !! p) as [v|]; simpl; [|reflexivity].
    rewrite IH.
    destruct (mapM _ ps) as [cols|]; simpl; [|reflexivity].
    by rewrite <- app_assoc.
Qed.

Lemma composeGlobalPrivUpdate_All (iter : list (Z * string)) :
  composeGlobalPrivUpdate iter mysql.AllPriv
  = Ok ((fun kv => assignY kv.2) <$> iter).
Proof.
  unfold composeGlobalPrivUpdate.
  rewrite decide_True by reflexivity.
  by rewrite composeGlobalPrivUpdate_loop_eq.
Qed.

Lemma composeDBPrivUpdate_All :
  composeDBPrivUpdate mysql.AllPriv
  = match mapM (fun p => mysql.Priv2UserCol !! p) mysql.AllDBPrivs with
    | Some cols => Ok (assignY <$> cols)
    | None => Err (ErrUnknownDBPrivilege mysql.AllPriv)
    end.
Proof.
  unfold composeDBPrivUpdate.
  rewrite decide_True by reflexivity.
  by rewrite composeDBPrivUpdate_loop_eq.
Qed.

End Mapper.

Section MapperClaims.
Context {defs : mysql.defs}.


(** A named privilege kind is looked up in the one table
    [mysql.Priv2UserCol] at both scopes: the expansion at database scope
    equals the expansion at global scope; it is the single assignment of
    "Y" to the kind's column when the kind has one, which sets that column
    of a row and no other, and the error "Unknown priv" when it has none.
    [mysql.AllDBPrivs] is not consulted for a named kind. *)
Theorem named_privilege_expansion (iter : list (Z * string))
    (priv : PrivilegeType) (Hnamed : priv <> mysql.AllPriv) :
  composeDBPrivUpdate priv = composeGlobalPrivUpdate iter priv /\
  match mysql.Priv2UserCol !! priv with
  | Some col =>
      composeDBPrivUpdate priv = Ok [assignY col] /\
      forall row : Row,
        set_columns [assignY col] row !! col = Some "Y" /\
        forall c, c <> col -> set_columns [assignY col] row !! c = row !! c
  | None => composeDBPrivUpdate priv = Err (ErrUnknownPriv priv)
  end.
Proof.
  unfold composeDBPrivUpdate, composeGlobalPrivUpdate.
  rewrite !decide_False by exact Hnamed.
  split; [reflexivity|].
  destruct (mysql.Priv2UserCol !! priv) as [col|]; [|reflexivity].
  split; [reflexivity|].
  intros row. simpl. split.
  - apply lookup_insert_eq.
  - intros c Hc. by apply lookup_insert_ne.
Qed.

(** C9 (amended). Two calls of the mapper at global scope, each with an
    order its range over the map may take, return the same assignments up
    to their order, and the same list for a named kind. At database scope
    no map is ranged over: the assignments of ALL follow the slice
    [mysql.AllDBPrivs] position by position. *)
Theorem Expand_determined_up_to_order (iter1 iter2 : list (Z * string))
    (priv : PrivilegeType)
    (H1 : MapRange mysql.Priv2UserCol iter1)
    (H2 : MapRange mysql.Priv2UserCol iter2) :
  same_assignments (composeGlobalPrivUpdate iter1 priv)
                   (composeGlobalPrivUpdate iter2 priv) /\
  (priv <> mysql.AllPriv ->
   composeGlobalPrivUpdate iter1 priv = composeGlobalPrivUpdate iter2 priv) /\
  (forall asgns, composeDBPrivUpdate mysql.AllPriv = Ok asgns ->
     Forall2 (fun p a => mysql.Priv2UserCol !! p = Some (ColName a) /\
                         Expr a = "Y")
             mysql.AllDBPrivs asgns).
Proof.
  split; [|split].
  - unfold composeGlobalPrivUpdate.
    destruct (decide (priv = mysql.AllPriv)) as [_|_].
    + rewrite !composeGlobalPrivUpdate_loop_eq. simpl.
      constructor. unfold MapRange in *. by rewrite H1, H2.
    + destruct (mysql.Priv2UserCol !! priv); constructor. reflexivity.
  - intros Hnamed. unfold composeGlobalPrivUpdate.
    by rewrite !decide_False by exact Hnamed.
  - intros asgns. rewrite composeDBPrivUpdate_All.
    destruct (mapM _ mysql.AllDBPrivs) as [cols|] eqn:Hm; [|discriminate].
    intros [= <-]. apply mapM_Some in Hm.
    apply Forall2_fmap_r. eapply Forall2_impl; [exact Hm|].
    simpl. auto.
Qed.

End MapperClaims.


Lemma named_privilege_expansion_witness :
  composeDBPrivUpdate (defs := sample.defs) sample.SelectPriv
  = composeGlobalPrivUpdate (defs := sample.defs) [] sample.SelectPriv.
Proof.
  apply (@named_privilege_expansion sample.defs [] sample.SelectPriv).
  discriminate.
Defined.

Lemma MapRange_sample_columns :
  MapRange (@mysql.Priv2UserCol sample.defs) sample.columns.
Proof.
  unfold MapRange. symmetry. apply map_to_list_to_map.
  compute_done.
Qed.

Lemma MapRange_sample_columns_reverse :
  MapRange (@mysql.Priv2UserCol sample.defs)
           (reverse sample.columns).
Proof.
  unfold MapRange. rewrite reverse_Permutation.
  apply MapRange_sample_columns.
Qed.

(** C9, counterexample. Two orders in which a range may visit the sample
    table give two different assignment lists for ALL at global scope. *)
Lemma ALL_at_global_scope_depends_on_range_order :
  MapRange (@mysql.Priv2UserCol sample.defs) sample.columns /\
  MapRange (@mysql.Priv2UserCol sample.defs)
           (reverse sample.columns) /\
  composeGlobalPrivUpdate (defs := sample.defs) sample.columns
                          sample.AllPriv
  <> composeGlobalPrivUpdate (defs := sample.defs) (reverse sample.columns)
                             sample.AllPriv.
Proof.
  split; [apply MapRange_sample_columns|].
  split; [apply MapRange_sample_columns_reverse|].
  vm_compute. discriminate.
Qed.

Lemma Expand_determined_up_to_order_witness :
  same_assignments
    (composeGlobalPrivUpdate (defs := sample.defs) sample.columns
                             sample.AllPriv)
    (composeGlobalPrivUpdate (defs := sample.defs) (reverse sample.columns)
                             sample.AllPriv).
Proof.
  apply (@Expand_determined_up_to_order sample.defs sample.columns
           (reverse sample.columns) sample.AllPriv).
  - apply MapRange_sample_columns.
  - apply MapRange_sample_columns_reverse.
Defined.

(* ===================================================================== *)
(** ** Running the monad *)
(* ===================================================================== *)

Lemma bind_Ok {A B} (m : M A) (f : A -> M B) ctx a ctx' :
  m ctx = (Ok a, ctx') -> (m ≫= f) ctx = f a ctx'.
Proof. intros H. unfold mbind, M_bind. by rewrite H. Qed.

Lemma bind_Err {A B} (m : M A) (f : A -> M B) ctx e ctx' :
  m ctx = (Err e, ctx') -> (m ≫= f) ctx = (Err e, ctx').
Proof. intros H. unfold mbind, M_bind. by rewrite H. Qed.

Lemma bind_Panic {A B} (m : M A) (f : A -> M B) ctx p ctx' :
  m ctx = (Panic p, ctx') -> (m ≫= f) ctx = (Panic p, ctx').
Proof. intros H. unfold mbind, M_bind. by rewrite H. Qed.

Lemma bind_unit (m : M unit) (ctx : Context) :
  (m ≫= fun _ => mret tt) ctx = m ctx.
Proof.
  unfold mbind, M_bind. by destruct (m ctx) as [[[]|e|p] ctx'].
Qed.

Lemma bind_ext {A B} (m1 m2 : M A) (f1 f2 : A -> M B) (ctx : Context) :
  m1 ctx = m2 ctx -> (forall a c, f1 a c = f2 a c) ->
  (m1 ≫= f1) ctx = (m2 ≫= f2) ctx.
Proof.
  intros Hm Hf. unfold mbind, M_bind. rewrite Hm.
  destruct (m2 ctx) as [[a|e|p] ctx']; [apply Hf|reflexivity..].
Qed.

Lemma out_eta {A} (m : M A) (ctx : Context) :
  (m ctx).2 = ctx -> m ctx = ((m ctx).1, ctx).
Proof. destruct (m ctx) as [r c]. simpl. by intros ->. Qed.

Lemma forEach_cons {A} (x : A) (xs : list A) (body : A -> M unit) :
  forEach (x :: xs) body = (body x ≫= fun _ => forEach xs body).
Proof. reflexivity. Qed.

Lemma forEach_app {A} (xs ys : list A) (body : A -> M unit) (ctx : Context) :
  forEach (xs ++ ys) body ctx
  = match forEach xs body ctx with
    | (Ok _, ctx1) => forEach ys body ctx1
    | (Err e, ctx1) => (Err e, ctx1)
    | (Panic p, ctx1) => (Panic p, ctx1)
    end.
Proof.
  revert ctx. induction xs as [|x xs IH]; intros ctx; [reflexivity|].
  simpl. unfold mbind, M_bind.
  destruct (body x ctx) as [[[]|e|p] ctx']; [apply IH|reflexivity..].
Qed.

Lemma forEach_Forall2 {A B} (R : A -> B -> Prop) (xs : list A) (ys : list B)
    (f : A -> M unit) (g : B -> M unit) :
  Forall2 R xs ys ->
  (forall x y ctx, R x y -> f x ctx = g y ctx) ->
  forall ctx, forEach xs f ctx = forEach ys g ctx.
Proof.
  intros HR Hfg. induction HR as [|x y xs ys Hxy _ IH]; intros ctx;
    [reflexivity|].
  simpl. unfold mbind, M_bind. rewrite (Hfg x y ctx Hxy).
  destruct (g y ctx) as [[[]|e|p] ctx']; [apply IH|reflexivity..].
Qed.

Section Keeps.
Context (R : relation Context) `{!PreOrder R}.

Lemma keeps_ret {A} (a : A) : keeps R (mret a : M A).
Proof. intros ctx. simpl. reflexivity. Qed.

Lemma keeps_lift {A} (r : res A) : keeps R (lift r).
Proof. intros ctx. simpl. reflexivity. Qed.

Lemma keeps_Errorf {A} (e : error) : keeps R (Errorf e : M A).
Proof. intros ctx. simpl. reflexivity. Qed.

Lemma keeps_eq {A} (m : M A) : keeps eq m -> keeps R m.
Proof. intros H ctx. rewrite <- (H ctx). reflexivity. Qed.

Lemma keeps_bind {A B} (m : M A) (f : A -> M B) :
  keeps R m -> (forall a, keeps R (f a)) -> keeps R (m ≫= f).
Proof.
  intros Hm Hf ctx. unfold mbind, M_bind.
  specialize (Hm ctx).
  destruct (m ctx) as [[a|e|p] ctx']; simpl in *; [|exact Hm..].
  etrans; [exact Hm|apply Hf].
Qed.

Lemma keeps_bind_lift {A B} (r : res A) (f : A -> M B) :
  (forall a, r = Ok a -> keeps R (f a)) -> keeps R (lift r ≫= f).
Proof.
  intros Hf ctx. destruct r as [a|e|p]; [by apply Hf|reflexivity..].
Qed.

Lemma keeps_forEach {A} (xs : list A) (body : A -> M unit) :
  (forall x, keeps R (body x)) -> keeps R (forEach xs body).
Proof.
  intros Hbody. induction xs as [|x xs IH].
  - apply keeps_ret.
  - rewrite forEach_cons. apply keeps_bind; [apply Hbody|]. intros _; exact IH.
Qed.

End Keeps.

Lemma no_panic_ret {A} (a : A) : no_panic (mret a : M A).
Proof. intros ctx p. discriminate. Qed.

Lemma no_panic_Errorf {A} (e : error) : no_panic (Errorf e : M A).
Proof. intros ctx p. discriminate. Qed.

Lemma no_panic_lift {A} (r : res A) :
  (forall p, r <> Panic p) -> no_panic (lift r).
Proof. intros H ctx p. apply H. Qed.

Lemma no_panic_bind {A B} (m : M A) (f : A -> M B) :
  no_panic m -> (forall a, no_panic (f a)) -> no_panic (m ≫= f).
Proof.
  intros Hm Hf ctx p. unfold mbind, M_bind.
  specialize (Hm ctx). destruct (m ctx) as [[a|e|q] ctx']; simpl in *.
  - apply Hf.
  - discriminate.
  - by destruct (Hm q).
Qed.

Lemma no_panic_forEach {A} (xs : list A) (body : A -> M unit) :
  (forall x, x ∈ xs -> no_panic (body x)) -> no_panic (forEach xs body).
Proof.
  induction xs as [|x xs IH]; intros Hbody; [apply no_panic_ret|].
  rewrite forEach_cons. apply no_panic_bind.
  - apply Hbody. by left.
  - intros _. apply IH. intros y Hy. apply Hbody. by right.
Qed.

(* ===================================================================== *)
(** ** Reads of the catalog *)
(* ===================================================================== *)

Lemma userExists_scan (name host : string) :
  userExists name host
  = scan mysql.UserTable (composeUserTableFilter name host).
Proof. reflexivity. Qed.

Lemma dbUserExists_scan (name host db : string) :
  dbUserExists name host db
  = scan mysql.DBTable (composeDBTableFilter name host db).
Proof. reflexivity. Qed.

(** A scan ends in one of two ways: the store let its three calls
    through and the answer is whether a row satisfies the filter, or the
    store refused one of them and its error is returned. The context is
    the same in both. *)
Lemma scan_cases (t : mysql.Table) (where_ : Expression) (ctx : Context) :
  (scan_ok t where_ ctx /\
   scan t where_ ctx = (Ok (found t where_ ctx), ctx)) \/
  (~ scan_ok t where_ ctx /\
   exists msg, scan t where_ ctx = (Err (ErrStore msg), ctx)).
Proof.
  unfold scan, scan_ok, found, mbind, M_bind, JoinRset_Plan, WhereRset_Plan,
    Plan_Next.
  destruct (fault (OpPlan t) ctx) as [msg|] eqn:H1.
  { right. split; [intros (? & _); discriminate|by exists msg]. }
  destruct (fault (OpWherePlan (rows t ctx) where_) ctx) as [msg|] eqn:H2.
  { right. split; [intros (_ & ? & _); discriminate|by exists msg]. }
  destruct (fault (OpNext _) ctx) as [msg|] eqn:H3.
  { right. split; [intros (_ & _ & ?); discriminate|by exists msg]. }
  left. by repeat split.
Qed.

Lemma scan_ctx (t : mysql.Table) (where_ : Expression) (ctx : Context) :
  (scan t where_ ctx).2 = ctx.
Proof.
  destruct (scan_cases t where_ ctx) as [[_ ->]|[_ [msg ->]]]; reflexivity.
Qed.

Lemma scan_run (t : mysql.Table) (where_ : Expression) (ctx : Context) :
  scan_ok t where_ ctx ->
  scan t where_ ctx = (Ok (found t where_ ctx), ctx).
Proof.
  intros Hok. destruct (scan_cases t where_ ctx) as [[_ H]|[H _]];
    [exact H|contradiction].
Qed.

Lemma scan_Ok (t : mysql.Table) (where_ : Expression) (ctx : Context)
    (b : bool) :
  (scan t where_ ctx).1 = Ok b ->
  scan_ok t where_ ctx /\ b = found t where_ ctx.
Proof.
  destruct (scan_cases t where_ ctx) as [[Hok ->]|[_ [msg ->]]]; simpl.
  - intros [= <-]. by split.
  - discriminate.
Qed.

Lemma scan_Err (t : mysql.Table) (where_ : Expression) (ctx : Context)
    (e : error) :
  (scan t where_ ctx).1 = Err e ->
  ~ scan_ok t where_ ctx /\ exists msg, e = ErrStore msg.
Proof.
  destruct (scan_cases t where_ ctx) as [[Hok ->]|[Hno [msg ->]]]; simpl.
  - discriminate.
  - intros [= <-]. split; [exact Hno|by exists msg].
Qed.

Lemma scan_no_panic (t : mysql.Table) (where_ : Expression) :
  no_panic (scan t where_).
Proof.
  intros ctx p.
  destruct (scan_cases t where_ ctx) as [[_ ->]|[_ [msg ->]]]; discriminate.
Qed.

Lemma scan_fst (t : mysql.Table) (where_ : Expression) (ctx : Context)
    (r : res bool) :
  (scan t where_ ctx).1 = r -> scan t where_ ctx = (r, ctx).
Proof. intros <-. apply out_eta, scan_ctx. Qed.

Lemma eq_scan (t : mysql.Table) (where_ : Expression) :
  keeps eq (scan t where_).
Proof. intros ctx. by rewrite scan_ctx. Qed.

Lemma userExists_fst (name host : string) (ctx : Context) (r : res bool) :
  (userExists name host ctx).1 = r ->
  userExists name host ctx = (r, ctx).
Proof. apply scan_fst. Qed.

Lemma dbUserExists_fst (name host db : string) (ctx : Context)
    (r : res bool) :
  (dbUserExists name host db ctx).1 = r ->
  dbUserExists name host db ctx = (r, ctx).
Proof. apply scan_fst. Qed.

Lemma eq_userExists (name host : string) : keeps eq (userExists name host).
Proof. apply eq_scan. Qed.

Lemma eq_dbUserExists (name host db : string) :
  keeps eq (dbUserExists name host db).
Proof. apply eq_scan. Qed.

Lemma head_filter_exists {A} (P : A -> Prop) `{forall x, Decision (P x)}
    (l : list A) :
  head (filter P l) <> None <-> exists x, x ∈ l /\ P x.
Proof.
  split.
  - destruct (filter P l) as [|x k] eqn:Hf; [done|]. intros _.
    assert (Hin : x ∈ filter P l) by (rewrite Hf; by left).
    apply list_elem_of_filter in Hin as [HP Hx]. by exists x.
  - intros (x & Hx & HP) Hnone.
    assert (Hin : x ∈ filter P l) by (by apply list_elem_of_filter).
    destruct (filter P l); [by apply not_elem_of_nil in Hin|discriminate].
Qed.

Lemma found_true (t : mysql.Table) (where_ : Expression) (ctx : Context) :
  found t where_ ctx = true <->
  exists row, row ∈ rows t ctx /\ matches where_ row = true.
Proof.
  unfold found. rewrite bool_decide_eq_true.
  apply (head_filter_exists (fun row => matches where_ row = true)).
Qed.

Lemma matches_composeUserTableFilter (name host : string) (row : Row) :
  matches (composeUserTableFilter name host) row = true <->
  row !! "User" = Some name /\ row !! "Host" = Some host.
Proof.
  unfold matches, composeUserTableFilter. simpl.
  destruct (row !! "User") as [u|], (row !! "Host") as [h|]; simpl;
    repeat case_bool_decide; simpl; intuition congruence.
Qed.

Lemma matches_composeDBTableFilter (name host db : string) (row : Row) :
  matches (composeDBTableFilter name host db) row = true <->
  row !! "User" = Some name /\ row !! "Host" = Some host /\
  row !! "DB" = Some db.
Proof.
  unfold matches, composeDBTableFilter, composeUserTableFilter. simpl.
  destruct (row !! "User") as [u|], (row !! "Host") as [h|],
    (row !! "DB") as [d|]; simpl;
    repeat case_bool_decide; simpl; intuition congruence.
Qed.

Lemma found_has_db_row (name host db : string) (ctx : Context) :
  found mysql.DBTable (composeDBTableFilter name host db) ctx = true <->
  has_db_row name host db ctx.
Proof.
  rewrite found_true. unfold has_db_row. simpl.
  split; intros (row & Hrow & Hm); exists row; (split; [exact Hrow|]);
    by apply matches_composeDBTableFilter.
Qed.

(** Any answer of [dbUserExists] is right: it is [true] exactly when the
    table holds a row for the principal and the database. *)
Lemma dbUserExists_Ok (name host db : string) (ctx : Context) (b : bool) :
  (dbUserExists name host db ctx).1 = Ok b ->
  (b = true <-> has_db_row name host db ctx).
Proof.
  rewrite dbUserExists_scan. intros H. apply scan_Ok in H as [_ ->].
  apply found_has_db_row.
Qed.

Lemma length_zero_empty (s : string) : String.length s = 0%nat <-> s = "".
Proof. destruct s; simpl; split; intros H; congruence. Qed.

Lemma getTargetSchema_level (s : GrantStmt) (level : coldef.GrantLevel)
    (ctx : Context) :
  Level s = Some level ->
  getTargetSchema s ctx = (TargetSchema_spec level ctx, ctx).
Proof.
  intros Hlevel. unfold getTargetSchema, TargetSchema_spec. rewrite Hlevel.
  change ((lift (deref (Some level)) ≫= ?f) ctx) with (f level ctx).
  cbv beta.
  destruct (coldef.DBName level) as [|c name]; simpl.
  - unfold mbind, M_bind, GetCurrentSchema.
    destruct (CurrentSchema ctx) as [|c name]; simpl; [reflexivity|].
    unfold SchemaByName. simpl.
    destruct (InfoSchema ctx !! _); reflexivity.
  - unfold mbind, M_bind, SchemaByName. simpl.
    destruct (InfoSchema ctx !! _); reflexivity.
Qed.

Lemma getTargetSchema_nil (s : GrantStmt) (ctx : Context) :
  Level s = None -> getTargetSchema s ctx = (Panic NilDereference, ctx).
Proof. intros Hlevel. unfold getTargetSchema. by rewrite Hlevel. Qed.

Lemma getTargetSchema_ctx (s : GrantStmt) (ctx : Context) :
  (getTargetSchema s ctx).2 = ctx.
Proof.
  destruct (Level s) as [level|] eqn:Hlevel.
  - by rewrite (getTargetSchema_level s level).
  - by rewrite getTargetSchema_nil.
Qed.

Lemma getTargetSchema_fst (s : GrantStmt) (ctx : Context) r :
  (getTargetSchema s ctx).1 = r -> getTargetSchema s ctx = (r, ctx).
Proof. intros <-. apply out_eta, getTargetSchema_ctx. Qed.

Lemma keeps_eq_getTargetSchema (s : GrantStmt) :
  keeps eq (getTargetSchema s).
Proof. intros ctx. by rewrite getTargetSchema_ctx. Qed.

Lemma TargetSchema_spec_session (level : coldef.GrantLevel)
    (ctx ctx' : Context) :
  session_kept ctx ctx' ->
  TargetSchema_spec level ctx' = TargetSchema_spec level ctx.
Proof. intros [Hc Hi]. unfold TargetSchema_spec. by rewrite Hc, Hi. Qed.

Lemma getTargetSchema_session (s : GrantStmt) (ctx ctx' : Context) :
  session_kept ctx ctx' ->
  (getTargetSchema s ctx').1 = (getTargetSchema s ctx).1.
Proof.
  intros Hkept. destruct (Level s) as [level|] eqn:Hlevel.
  - rewrite !(getTargetSchema_level s level) by exact Hlevel. simpl.
    by apply TargetSchema_spec_session.
  - by rewrite !getTargetSchema_nil.
Qed.

Lemma no_panic_getTargetSchema (s : GrantStmt) :
  Level s <> None -> no_panic (getTargetSchema s).
Proof.
  intros Hlevel ctx p. destruct (Level s) as [level|] eqn:Hl; [|done].
  rewrite (getTargetSchema_level s level) by exact Hl. simpl.
  unfold TargetSchema_spec. repeat case_decide; try discriminate;
    destruct (InfoSchema ctx !! _); discriminate.
Qed.

(* ===================================================================== *)
(** ** Effects of the statements on the catalog *)
(* ===================================================================== *)

Lemma rows_set_rows (t t' : mysql.Table) (rs : list Row) (ctx : Context) :
  rows t (set_rows t' rs ctx) = if decide (t = t') then rs else rows t ctx.
Proof. by destruct t, t'. Qed.

Lemma rows_record (t : mysql.Table) (st : Statement) (ctx : Context) :
  rows t (record st ctx) = rows t ctx.
Proof. by destruct t. Qed.

(** The executor runs a statement or refuses it with an error of the
    store. *)
Lemma accepts_cases (st : Statement) (ctx : Context) :
  accepts st ctx = Ok tt \/ exists msg, accepts st ctx = Err (ErrStore msg).
Proof.
  unfold accepts. case_decide; [|right; by eexists].
  destruct (fault _ _) as [msg|]; [right; by eexists|by left].
Qed.

Lemma UpdateStmt_Exec_run (t : mysql.Table) (asgns : list Assignment)
    (where_ : Expression) (ctx : Context) :
  UpdateStmt_Exec t asgns where_ ctx
  = (accepts (UpdateStmt t asgns where_) ctx,
     record (UpdateStmt t asgns where_)
       (match accepts (UpdateStmt t asgns where_) ctx with
        | Ok _ =>
            set_rows t
              ((fun row => if matches where_ row then set_columns asgns row
                           else row) <$> rows t ctx) ctx
        | _ => ctx
        end)).
Proof.
  unfold UpdateStmt_Exec.
  by destruct (accepts (UpdateStmt t asgns where_) ctx) as [[]|e|p].
Qed.

Lemma InsertIntoStmt_Exec_run (t : mysql.Table) (cols : list string)
    (lists : list (list string)) (ctx : Context) :
  InsertIntoStmt_Exec t cols lists ctx
  = (accepts (InsertIntoStmt t cols lists) ctx,
     record (InsertIntoStmt t cols lists)
       (match accepts (InsertIntoStmt t cols lists) ctx with
        | Ok _ =>
            set_rows t
              (rows t ctx
               ++ ((fun vs => list_to_map (zip cols vs) : Row) <$> lists))
              ctx
        | _ => ctx
        end)).
Proof.
  unfold InsertIntoStmt_Exec.
  by destruct (accepts (InsertIntoStmt t cols lists) ctx) as [[]|e|p].
Qed.

Lemma rows_UpdateStmt_Exec (t t0 : mysql.Table) asgns where_
    (ctx : Context) :
  rows t0 (UpdateStmt_Exec t asgns where_ ctx).2
  = match accepts (UpdateStmt t asgns where_) ctx with
    | Ok _ =>
        if decide (t0 = t)
        then (fun row => if matches where_ row then set_columns asgns row
                         else row) <$> rows t ctx
        else rows t0 ctx
    | _ => rows t0 ctx
    end.
Proof.
  rewrite UpdateStmt_Exec_run. cbn [snd]. rewrite rows_record.
  destruct (accepts _ ctx) as [[]|e|p]; [|reflexivity..].
  rewrite rows_set_rows. by destruct (decide (t0 = t)) as [->|].
Qed.

Lemma Executed_UpdateStmt_Exec (t : mysql.Table) asgns where_
    (ctx : Context) :
  Executed (UpdateStmt_Exec t asgns where_ ctx).2
  = Executed ctx ++ [UpdateStmt t asgns where_].
Proof.
  rewrite UpdateStmt_Exec_run. cbn [snd].
  by destruct (accepts _ ctx) as [[]|e|p].
Qed.

Lemma session_kept_UpdateStmt_Exec (t : mysql.Table) asgns where_
    (ctx : Context) :
  session_kept ctx (UpdateStmt_Exec t asgns where_ ctx).2.
Proof.
  rewrite UpdateStmt_Exec_run. cbn [snd].
  by destruct (accepts _ ctx) as [[]|e|p].
Qed.

Lemma rows_InsertIntoStmt_Exec (t t0 : mysql.Table) cols lists
    (ctx : Context) :
  rows t0 (InsertIntoStmt_Exec t cols lists ctx).2
  = match accepts (InsertIntoStmt t cols lists) ctx with
    | Ok _ =>
        if decide (t0 = t)
        then rows t ctx
             ++ ((fun vs => list_to_map (zip cols vs) : Row) <$> lists)
        else rows t0 ctx
    | _ => rows t0 ctx
    end.
Proof.
  rewrite InsertIntoStmt_Exec_run. cbn [snd]. rewrite rows_record.
  destruct (accepts _ ctx) as [[]|e|p]; [|reflexivity..].
  rewrite rows_set_rows. by destruct (decide (t0 = t)) as [->|].
Qed.

Lemma session_kept_InsertIntoStmt_Exec (t : mysql.Table) cols lists
    (ctx : Context) :
  session_kept ctx (InsertIntoStmt_Exec t cols lists ctx).2.
Proof.
  rewrite InsertIntoStmt_Exec_run. cbn [snd].
  by destruct (accepts _ ctx) as [[]|e|p].
Qed.

#[global] Instance row_updated_preorder : PreOrder row_updated.
Proof.
  split.
  - intros row. by exists [].
  - intros r1 r2 r3 [a1 ->] [a2 ->]. exists (a1 ++ a2).
    by rewrite set_columns_app.
Qed.

#[global] Instance updated_preorder : PreOrder updated.
Proof.
  split.
  - intros ctx. split.
    + exists []. by rewrite app_nil_r.
    + intros t. reflexivity.
  - intros c1 c2 c3 [(tr1 & E1 & F1) R1] [(tr2 & E2 & F2) R2]. split.
    + exists (tr1 ++ tr2). rewrite E2, E1, <- app_assoc.
      split; [reflexivity|]. by apply Forall_app.
    + intros t. etrans; [apply R1|apply R2].
Qed.

Lemma updated_UpdateStmt_Exec (t : mysql.Table) (asgns : list Assignment)
    (where_ : Expression) :
  keeps updated (UpdateStmt_Exec t asgns where_).
Proof.
  intros ctx. split.
  - exists [UpdateStmt t asgns where_].
    split; [apply Executed_UpdateStmt_Exec|by repeat constructor].
  - intros t0. rewrite rows_UpdateStmt_Exec.
    destruct (accepts _ ctx) as [[]|e|p]; [|reflexivity..].
    destruct (decide (t0 = t)) as [->|_]; [|reflexivity].
    apply Forall2_fmap_r, Forall_Forall2_diag, Forall_forall.
    intros row _. unfold compose. destruct (matches where_ row).
    + by exists asgns.
    + reflexivity.
Qed.

Lemma updated_rangePriv2UserCol : keeps updated rangePriv2UserCol.
Proof.
  intros ctx. unfold rangePriv2UserCol. simpl. split.
  - exists []. simpl. by rewrite app_nil_r.
  - intros t. by destruct t.
Qed.

Lemma deref_Ok {A} (p : option A) (a : A) : deref p = Ok a -> p = Some a.
Proof. destruct p; simpl; congruence. Qed.

(** Steps that do not touch the context, one after the other. *)
Ltac keeps_lifts :=
  repeat (apply keeps_bind; [apply _|apply keeps_lift; apply _|intros ?]).

Section Engine.
Context {defs : mysql.defs}.

Lemma updated_grantGlobalPriv s priv user :
  keeps updated (grantGlobalPriv s priv user).
Proof.
  unfold grantGlobalPriv. keeps_lifts.
  apply keeps_bind; [apply _|apply updated_rangePriv2UserCol|]. intros iter.
  keeps_lifts. apply updated_UpdateStmt_Exec.
Qed.

Lemma updated_grantDBPriv s priv user :
  keeps updated (grantDBPriv s priv user).
Proof.
  unfold grantDBPriv.
  apply keeps_bind; [apply _| |].
  { apply keeps_eq; [apply _|apply keeps_eq_getTargetSchema]. }
  intros db. keeps_lifts. apply updated_UpdateStmt_Exec.
Qed.

Lemma updated_grantPriv s priv user : keeps updated (grantPriv s priv user).
Proof.
  unfold grantPriv. keeps_lifts.
  match goal with |- context [coldef.Level ?l] => destruct (coldef.Level l) end.
  - apply updated_grantGlobalPriv.
  - apply updated_grantDBPriv.
  - (apply keeps_ret; apply _).
  - (apply keeps_Errorf; apply _).
Qed.

Lemma updated_forEach_grantPriv (s : GrantStmt) u :
  keeps updated (forEach (Privs s) (fun priv => grantPriv s priv u)).
Proof.
  apply keeps_forEach; [apply _|]. intros priv. apply updated_grantPriv.
Qed.

Lemma updated_Exec_user s user :
  (forall level, Level s = Some level ->
                 coldef.Level level <> coldef.GrantLevelDB) ->
  keeps updated (Exec_user s user).
Proof.
  intros Hscope. unfold Exec_user. keeps_lifts.
  apply keeps_bind; [apply _| |].
  { apply keeps_eq; [apply _|apply eq_userExists]. }
  intros exists_. destruct (negb exists_); [(apply keeps_Errorf; apply _)|].
  apply keeps_bind_lift; [apply _|]. intros level Hlevel.
  apply deref_Ok in Hlevel. specialize (Hscope level Hlevel).
  apply keeps_bind; [apply _| |].
  - destruct (coldef.Level level); try (apply keeps_ret; apply _).
    contradiction.
  - intros _. apply updated_forEach_grantPriv.
Qed.

End Engine.

(* ===================================================================== *)
(** ** Running the statement *)
(* ===================================================================== *)

Lemma length_Split (s : string) (sep : ascii) :
  length (Split s sep) = S (Count s sep).
Proof.
  induction s as [|c s IH]; simpl; [reflexivity|].
  destruct (Ascii.eqb c sep); simpl; [by rewrite IH|].
  destruct (Split s sep); simpl in *; congruence.
Qed.

Section Run.
Context {defs : mysql.defs}.

Lemma Exec_cons (s : GrantStmt) u rest (ctx : Context) :
  Users s = u :: rest ->
  Exec s ctx = (Exec_user s u ≫= fun _ => forEach rest (Exec_user s)) ctx.
Proof. intros H. unfold Exec. by rewrite H. Qed.

Lemma Exec_single (s : GrantStmt) u (ctx : Context) :
  Users s = [u] -> Exec s ctx = Exec_user s u ctx.
Proof. intros H. rewrite (Exec_cons s u []) by exact H. apply bind_unit. Qed.

(** The loop body up to the existence check, for a principal that
    splits. *)
Lemma Exec_user_split (s : GrantStmt) u name host more (ctx : Context) :
  Split (coldef.User u) "@" = name :: host :: more ->
  Exec_user s (Some u) ctx
  = (userExists name host ≫= fun exists_ : bool =>
     if negb exists_ then Errorf (ErrUnknownUser (coldef.User u))
     else
       level ← lift (deref (Level s));
       (match coldef.Level level with
        | coldef.GrantLevelDB => checkAndInitDBPriv s name host
        | _ => mret tt
        end : M unit);;
       forEach (Privs s) (fun priv => grantPriv s priv (Some u))) ctx.
Proof.
  intros Hsplit. unfold Exec_user.
  change ((lift (deref (Some u)) ≫= ?f) ctx) with (f u ctx). cbv beta.
  rewrite Hsplit. reflexivity.
Qed.

(** The loop body for a principal that splits and exists, under a level
    that is set: the row check of the database scope, then the privileges
    in order. *)
Lemma Exec_user_known (s : GrantStmt) level u name host more
    (ctx : Context) :
  Level s = Some level ->
  Split (coldef.User u) "@" = name :: host :: more ->
  (userExists name host ctx).1 = Ok true ->
  Exec_user s (Some u) ctx
  = ((match coldef.Level level with
      | coldef.GrantLevelDB => checkAndInitDBPriv s name host
      | _ => mret tt
      end : M unit) ≫= fun _ =>
     forEach (Privs s) (fun priv => grantPriv s priv (Some u))) ctx.
Proof.
  intros Hlevel Hsplit Hexists.
  rewrite (Exec_user_split s u name host more ctx Hsplit).
  rewrite (bind_Ok _ _ _ _ _ (userExists_fst _ _ _ _ Hexists)).
  cbv beta iota. simpl negb. cbv iota. rewrite Hlevel. reflexivity.
Qed.

Lemma Exec_user_unknown (s : GrantStmt) u name host more (ctx : Context) :
  Split (coldef.User u) "@" = name :: host :: more ->
  (userExists name host ctx).1 = Ok false ->
  Exec_user s (Some u) ctx = (Err (ErrUnknownUser (coldef.User u)), ctx).
Proof.
  intros Hsplit Habsent.
  rewrite (Exec_user_split s u name host more ctx Hsplit).
  by rewrite (bind_Ok _ _ _ _ _ (userExists_fst _ _ _ _ Habsent)).
Qed.

Lemma Exec_user_store_error (s : GrantStmt) u name host more e
    (ctx : Context) :
  Split (coldef.User u) "@" = name :: host :: more ->
  (userExists name host ctx).1 = Err e ->
  Exec_user s (Some u) ctx = (Err e, ctx).
Proof.
  intros Hsplit Herr.
  rewrite (Exec_user_split s u name host more ctx Hsplit).
  by rewrite (bind_Err _ _ _ _ _ (userExists_fst _ _ _ _ Herr)).
Qed.

Lemma Exec_user_no_separator (s : GrantStmt) u (ctx : Context) :
  Count (coldef.User u) "@" = 0%nat ->
  Exec_user s (Some u) ctx = (Panic (IndexOutOfRange 1 1), ctx).
Proof.
  intros Hcount. unfold Exec_user.
  change ((lift (deref (Some u)) ≫= ?f) ctx) with (f u ctx). cbv beta.
  pose proof (length_Split (coldef.User u) "@") as Hlen.
  rewrite Hcount in Hlen.
  destruct (Split (coldef.User u) "@") as [|part [|? ?]]; simpl in Hlen;
    try discriminate.
  reflexivity.
Qed.

Lemma Exec_no_separator (s : GrantStmt) u rest (ctx : Context) :
  Users s = Some u :: rest ->
  Count (coldef.User u) "@" = 0%nat ->
  Exec s ctx = (Panic (IndexOutOfRange 1 1), ctx).
Proof.
  intros Husers Hcount. rewrite (Exec_cons s (Some u) rest) by exact Husers.
  apply bind_Panic. by apply Exec_user_no_separator.
Qed.

Lemma grantPriv_level (s : GrantStmt) level priv user (ctx : Context) :
  Level s = Some level ->
  grantPriv s priv user ctx
  = match coldef.Level level with
    | coldef.GrantLevelGlobal => grantGlobalPriv s priv user ctx
    | coldef.GrantLevelDB => grantDBPriv s priv user ctx
    | coldef.GrantLevelTable => grantTablePriv s priv user ctx
    | coldef.GrantLevelOther _ => (Err (ErrUnknownGrantLevel level), ctx)
    end.
Proof.
  intros Hlevel. unfold grantPriv. rewrite Hlevel.
  change ((lift (deref (Some level)) ≫= ?f) ctx) with (f level ctx).
  cbv beta. by destruct (coldef.Level level).
Qed.

Lemma forEach_grantPriv_table (s : GrantStmt) level u privs
    (ctx : Context) :
  Level s = Some level ->
  coldef.Level level = coldef.GrantLevelTable ->
  forEach privs (fun priv => grantPriv s priv u) ctx = (Ok tt, ctx).
Proof.
  intros Hlevel Htable. induction privs as [|priv privs IH]; [reflexivity|].
  rewrite forEach_cons.
  erewrite bind_Ok; [exact IH|].
  rewrite (grantPriv_level s level) by exact Hlevel. by rewrite Htable.
Qed.

(** With no privilege to grant outside the database scope, the loop body
    does nothing for a principal that exists. *)
Lemma Exec_user_nothing (s : GrantStmt) level u (ctx : Context) :
  Level s = Some level ->
  coldef.Level level <> coldef.GrantLevelDB ->
  Privs s = [] \/ coldef.Level level = coldef.GrantLevelTable ->
  principal_exists ctx u ->
  Exec_user s u ctx = (Ok tt, ctx).
Proof.
  intros Hlevel Hscope Hnothing (u' & name & host & more & -> & Hsplit & Hexists).
  rewrite (Exec_user_known s level u' name host more) by assumption.
  destruct Hnothing as [Hprivs|Htable].
  - rewrite Hprivs. by destruct (coldef.Level level).
  - rewrite Htable. erewrite bind_Ok by reflexivity.
    by apply (forEach_grantPriv_table s level).
Qed.

Lemma Exec_nothing (s : GrantStmt) level (ctx : Context) :
  Level s = Some level ->
  coldef.Level level <> coldef.GrantLevelDB ->
  Privs s = [] \/ coldef.Level level = coldef.GrantLevelTable ->
  Forall (principal_exists ctx) (Users s) ->
  Exec s ctx = (Ok tt, ctx).
Proof.
  intros Hlevel Hscope Hnothing. unfold Exec.
  induction 1 as [|u rest Hu _ IH]; [reflexivity|].
  rewrite forEach_cons.
  rewrite (bind_Ok _ _ _ _ _
             (Exec_user_nothing s level u ctx Hlevel Hscope Hnothing Hu)).
  exact IH.
Qed.

End Run.

Section NoPrivilege.
Context {defs : mysql.defs}.

Lemma Exec_user_no_privs (s : GrantStmt) level u (ctx : Context) :
  Level s = Some level ->
  coldef.Level level <> coldef.GrantLevelDB ->
  Privs s = [] ->
  quiet ctx (Exec_user s u ctx).
Proof.
  intros Hlevel Hscope Hprivs.
  destruct u as [u|].
  2:{ split; [reflexivity|]. right; right; right. by eexists. }
  destruct (Split (coldef.User u) "@") as [|name [|host more]] eqn:Hsplit.
  - unfold Exec_user.
    change ((lift (deref (Some u)) ≫= ?f) ctx) with (f u ctx). cbv beta.
    rewrite Hsplit. split; [reflexivity|].
    right; right; right. by eexists.
  - unfold Exec_user.
    change ((lift (deref (Some u)) ≫= ?f) ctx) with (f u ctx). cbv beta.
    rewrite Hsplit. split; [reflexivity|].
    right; right; right. by eexists.
  - destruct (userExists name host ctx).1 as [[|]|e|p] eqn:Hrun.
    + rewrite (Exec_user_nothing s level (Some u) ctx Hlevel Hscope
                 (or_introl Hprivs)).
      * split; [reflexivity|]. by left.
      * by exists u, name, host, more.
    + rewrite (Exec_user_unknown s u name host more ctx Hsplit Hrun).
      split; [reflexivity|]. right; left. by eexists.
    + rewrite (Exec_user_store_error s u name host more e ctx Hsplit Hrun).
      split; [reflexivity|].
      rewrite userExists_scan in Hrun.
      apply scan_Err in Hrun as [_ [msg ->]].
      right; right; left. by eexists.
    + rewrite userExists_scan in Hrun. by apply scan_no_panic in Hrun.
Qed.

Lemma Exec_no_privs (s : GrantStmt) level (ctx : Context) :
  Level s = Some level ->
  coldef.Level level <> coldef.GrantLevelDB ->
  Privs s = [] ->
  quiet ctx (Exec s ctx).
Proof.
  intros Hlevel Hscope Hprivs. unfold Exec.
  induction (Users s) as [|u rest IH].
  - split; [reflexivity|]. by left.
  - rewrite forEach_cons. unfold mbind, M_bind.
    destruct (Exec_user_no_privs s level u ctx Hlevel Hscope Hprivs)
      as [Hctx Hout].
    destruct (Exec_user s u ctx) as [[[]|e|p] ctx']; simpl in *; subst ctx'.
    + exact IH.
    + split; [reflexivity|]. simpl.
      destruct Hout as [?|[[user ?]|[[msg ?]|[? ?]]]]; try discriminate.
      * right; left. by exists user.
      * right; right; left. by exists msg.
    + split; [reflexivity|]. right; right; right. by eexists.
Qed.

End NoPrivilege.

(* ===================================================================== *)
(** ** The statement: claims *)
(* ===================================================================== *)

Section EngineClaims.
Context {defs : mysql.defs}.

(** C2. With a grant level other than the database level, [Exec] runs no
    INSERT: whatever its outcome and whatever the store answers, the
    statements it handed to the executor are UPDATEs, and every catalog
    table holds the rows it held, each with some columns assigned. *)
Theorem no_insert_outside_database_scope (s : GrantStmt) (ctx : Context)
    (Hscope : forall level, Level s = Some level ->
                coldef.Level level <> coldef.GrantLevelDB) :
  updated ctx (Exec s ctx).2.
Proof.
  unfold Exec. apply keeps_forEach; [apply _|].
  intros user. by apply updated_Exec_user.
Qed.

(** C5. When the first principal of the request splits into a name and a
    host that match no row of the user table, [Exec] fails with "Unknown
    user" and leaves the context as it was: no statement is run, no row is
    changed. *)
Theorem unknown_principal_is_rejected (s : GrantStmt) (ctx : Context)
    (u : coldef.UserSpecification)
    (rest : list (option coldef.UserSpecification))
    (name host : string) (more : list string)
    (Husers : Users s = Some u :: rest)
    (Hsplit : Split (coldef.User u) "@" = name :: host :: more)
    (Habsent : (userExists name host ctx).1 = Ok false) :
  Exec s ctx = (Err (ErrUnknownUser (coldef.User u)), ctx).
Proof.
  rewrite (Exec_cons s (Some u) rest) by exact Husers.
  apply bind_Err. by eapply Exec_user_unknown.
Qed.

(** C7. [getTargetSchema] computes the target schema of the level of the
    statement as the specification words it: an empty database name of the
    level is replaced by the current schema; a name still empty fails with
    "Miss DB name"; a name the schema catalog does not hold fails with
    "Unknown schema name"; otherwise the schema found is returned. The
    context is returned as it was. (A statement whose level is [nil] has
    no database name to read: the read panics.) *)
Theorem getTargetSchema_refines_spec (s : GrantStmt) (ctx : Context) :
  getTargetSchema s ctx
  = (match Level s with
     | Some level => TargetSchema_spec level ctx
     | None => Panic NilDereference
     end, ctx).
Proof.
  unfold getTargetSchema, TargetSchema_spec.
  destruct (Level s) as [level|]; [|reflexivity].
  change ((lift (deref (Some level)) ≫= ?f) ctx) with (f level ctx).
  cbv beta.
  destruct (coldef.DBName level) as [|c name]; simpl.
  - unfold mbind, M_bind, GetCurrentSchema.
    destruct (CurrentSchema ctx) as [|c name]; simpl; [reflexivity|].
    unfold SchemaByName. simpl.
    destruct (InfoSchema ctx !! _); reflexivity.
  - unfold mbind, M_bind, SchemaByName. simpl.
    destruct (InfoSchema ctx !! _); reflexivity.
Qed.

(** C8. A grant at table level to principals that all exist succeeds and
    leaves the context as it was: no statement is run and no table
    changes. *)
Theorem table_scope_grant_is_a_no_op (s : GrantStmt) (ctx : Context)
    (level : coldef.GrantLevel)
    (Hlevel : Level s = Some level)
    (Hscope : coldef.Level level = coldef.GrantLevelTable)
    (Husers : Forall (principal_exists ctx) (Users s)) :
  Exec s ctx = (Ok tt, ctx).
Proof.
  apply (Exec_nothing s level);
    [exact Hlevel|by rewrite Hscope|by right|exact Husers].
Qed.

(** C10 (amended). With a grant level outside the three known ones and no
    privilege to grant, [Exec] leaves the context as it was and never
    fails with "Unknown grant level"; it succeeds when every principal
    exists. *)
Theorem unknown_level_without_privileges (s : GrantStmt) (ctx : Context)
    (level : coldef.GrantLevel) (code : Z)
    (Hlevel : Level s = Some level)
    (Hother : coldef.Level level = coldef.GrantLevelOther code)
    (Hprivs : Privs s = []) :
  (Exec s ctx).2 = ctx /\
  (forall l, (Exec s ctx).1 <> Err (ErrUnknownGrantLevel l)) /\
  (Forall (principal_exists ctx) (Users s) -> Exec s ctx = (Ok tt, ctx)).
Proof.
  assert (Hscope : coldef.Level level <> coldef.GrantLevelDB)
    by (by rewrite Hother).
  destruct (Exec_no_privs s level ctx Hlevel Hscope Hprivs) as [Hctx Hout].
  split; [exact Hctx|]. split.
  - intros l. destruct Hout as [->|[[user ->]|[[msg ->]|[p ->]]]];
      discriminate.
  - intros Husers.
    apply (Exec_nothing s level); [exact Hlevel|exact Hscope|by left|exact Husers].
Qed.

End EngineClaims.

(* ===================================================================== *)
(** ** The database-privilege row *)
(* ===================================================================== *)

Lemma initDBPrivEntry_run (user host db : string) (ctx : Context) :
  initDBPrivEntry user host db ctx
  = (accepts (insert_db_row host user db) ctx,
     record (insert_db_row host user db)
       (match accepts (insert_db_row host user db) ctx with
        | Ok _ =>
            set_rows mysql.DBTable
              (DBRows ctx ++ [default_row host user db]) ctx
        | _ => ctx
        end)).
Proof. unfold initDBPrivEntry. by rewrite InsertIntoStmt_Exec_run. Qed.



Lemma session_kept_initDBPrivEntry (user host db : string) (ctx : Context) :
  session_kept ctx (initDBPrivEntry user host db ctx).2.
Proof. apply session_kept_InsertIntoStmt_Exec. Qed.

Lemma default_row_key (host user db : string) :
  default_row host user db !! "User" = Some user /\
  default_row host user db !! "Host" = Some host /\
  default_row host user db !! "DB" = Some db.
Proof. repeat split. Qed.


Lemma has_db_row_app (n h d : string) (ctx ctx' : Context) (row : Row) :
  DBRows ctx' = DBRows ctx ++ [row] ->
  has_db_row n h d ctx' <->
  has_db_row n h d ctx \/
  (row !! "User" = Some n /\ row !! "Host" = Some h /\ row !! "DB" = Some d).
Proof.
  intros Hrows. unfold has_db_row. rewrite Hrows. split.
  - intros (r & Hr & Hkey).
    apply elem_of_app in Hr as [Hr|Hr]; [left; by exists r|].
    apply list_elem_of_singleton in Hr as ->. by right.
  - intros [(r & Hr & Hkey)|Hkey].
    + exists r. split; [apply elem_of_app; by left|exact Hkey].
    + exists row.
      split; [apply elem_of_app; right; by apply list_elem_of_singleton|done].
Qed.

(** [checkAndInitDBPriv] once the schema is resolved: the lookup of the
    row, and the INSERT when the lookup answers that there is none. *)
Lemma checkAndInitDBPriv_run (s : GrantStmt) level name host db ctx :
  Level s = Some level ->
  TargetSchema_spec level ctx = Ok db ->
  checkAndInitDBPriv s name host ctx
  = (dbUserExists name host (model.O (model.Name db)) ≫= fun ok : bool =>
     if ok then mret tt
     else initDBPrivEntry name host (model.O (model.Name db))) ctx.
Proof.
  intros Hlevel Hschema. unfold checkAndInitDBPriv.
  erewrite bind_Ok; [reflexivity|].
  by rewrite (getTargetSchema_level s level), Hschema.
Qed.

(** When the row is there, [checkAndInitDBPriv] changes nothing, whatever
    the store answers to the lookup: the lookup cannot answer that there is
    no row. *)
Lemma checkAndInitDBPriv_present (s : GrantStmt) level name host db ctx :
  Level s = Some level ->
  TargetSchema_spec level ctx = Ok db ->
  has_db_row name host (model.O (model.Name db)) ctx ->
  (checkAndInitDBPriv s name host ctx).2 = ctx /\
  (scan_ok mysql.DBTable
     (composeDBTableFilter name host (model.O (model.Name db))) ctx ->
   checkAndInitDBPriv s name host ctx = (Ok tt, ctx)).
Proof.
  intros Hlevel Hschema Hrow.
  rewrite (checkAndInitDBPriv_run s level name host db ctx Hlevel Hschema).
  rewrite dbUserExists_scan. unfold mbind, M_bind.
  apply found_has_db_row in Hrow.
  destruct (scan_cases mysql.DBTable
              (composeDBTableFilter name host (model.O (model.Name db))) ctx)
    as [[Hok ->]|[Hno [msg ->]]].
  - rewrite Hrow. by split.
  - split; [reflexivity|]. intros Hok. contradiction.
Qed.



Lemma has_db_row_insert (user host db n h d : string) (ctx ctx' : Context) :
  DBRows ctx' = DBRows ctx ++ [default_row host user db] ->
  has_db_row n h d ctx' <->
  has_db_row n h d ctx \/ (n = user /\ h = host /\ d = db).
Proof.
  intros Hrows. rewrite (has_db_row_app n h d ctx ctx' _ Hrows).
  destruct (default_row_key host user db) as (Hu & Hh & Hd).
  rewrite Hu, Hh, Hd. intuition congruence.
Qed.

(** A successful [checkAndInitDBPriv] found the row or inserted it. *)
Lemma checkAndInitDBPriv_Ok (s : GrantStmt) level name host db ctx ctx1 :
  Level s = Some level ->
  TargetSchema_spec level ctx = Ok db ->
  checkAndInitDBPriv s name host ctx = (Ok tt, ctx1) ->
  has_db_row name host (model.O (model.Name db)) ctx1 /\
  session_kept ctx ctx1.
Proof.
  intros Hlevel Hschema Hrun.
  rewrite (checkAndInitDBPriv_run s level name host db ctx Hlevel Hschema)
    in Hrun.
  rewrite dbUserExists_scan in Hrun. unfold mbind, M_bind in Hrun.
  destruct (scan_cases mysql.DBTable
              (composeDBTableFilter name host (model.O (model.Name db)))
              ctx) as [[_ Hscan]|[_ [msg Hscan]]];
    rewrite Hscan in Hrun; [|discriminate].
  destruct (found _ _ ctx) eqn:Hfound.
  - injection Hrun as <-. split; [by apply found_has_db_row|by split].
  - pose proof (session_kept_initDBPrivEntry name host
                  (model.O (model.Name db)) ctx) as Hkept.
    rewrite initDBPrivEntry_run in Hrun, Hkept.
    destruct (accepts _ ctx) as [[]|e|p]; try discriminate.
    injection Hrun as <-. split; [|exact Hkept].
    apply (has_db_row_insert name host (model.O (model.Name db)) _ _ _ ctx);
      [reflexivity|by right].
Qed.

Section DatabaseRow.
Context {defs : mysql.defs}.

(** The loop body when the row is there: only UPDATEs, whatever the store
    answers. *)
Lemma Exec_user_row_present (s : GrantStmt) level u name host more db ctx :
  Level s = Some level ->
  coldef.Level level = coldef.GrantLevelDB ->
  Split (coldef.User u) "@" = name :: host :: more ->
  TargetSchema_spec level ctx = Ok db ->
  has_db_row name host (model.O (model.Name db)) ctx ->
  updated ctx (Exec_user s (Some u) ctx).2.
Proof.
  intros Hlevel Hscope Hsplit Hschema Hrow.
  rewrite (Exec_user_split s u name host more ctx Hsplit).
  unfold mbind at 1, M_bind at 1.
  rewrite (userExists_fst name host ctx _ eq_refl).
  destruct (userExists name host ctx).1 as [[|]|e|p]; try reflexivity.
  change (negb true) with false. cbv iota. rewrite Hlevel.
  change ((lift (deref (Some level)) ≫= ?f) ctx) with (f level ctx).
  cbv beta. rewrite Hscope.
  destruct (checkAndInitDBPriv_present s level name host db ctx
              Hlevel Hschema Hrow) as [Hctx _].
  unfold mbind, M_bind.
  destruct (checkAndInitDBPriv s name host ctx) as [[[]|e|p] c];
    simpl in Hctx; subst c; try reflexivity.
  apply updated_forEach_grantPriv.
Qed.


End DatabaseRow.

(* ===================================================================== *)
(** ** The claims on the sample catalog *)
(* ===================================================================== *)




(** GRANT ALL ON *.* TO bob@localhost on the sample catalog. *)
Lemma no_insert_outside_database_scope_witness :
  updated sample.ctx0
    (Exec (defs := sample.defs)
       (sample.grant [sample.AllPriv] sample.onGlobal ["bob@localhost"])
       sample.ctx0).2.
Proof.
  apply (no_insert_outside_database_scope (defs := sample.defs)).
  intros level [= <-]. discriminate.
Defined.

(** A grant to ghost@%, who is not in the sample user table. *)
Lemma unknown_principal_is_rejected_witness :
  Exec (defs := sample.defs)
    (sample.grant [sample.SelectPriv] sample.onGlobal ["ghost@%"])
    sample.ctx0
  = (Err (ErrUnknownUser "ghost@%"), sample.ctx0).
Proof.
  apply (unknown_principal_is_rejected (defs := sample.defs)
           (sample.grant [sample.SelectPriv] sample.onGlobal ["ghost@%"])
           sample.ctx0 {| coldef.User := "ghost@%" |} [] "ghost" "%" []);
    vm_compute; reflexivity.
Defined.

Lemma principal_exists_alice :
  principal_exists sample.ctx0 (Some {| coldef.User := "alice@%" |}).
Proof.
  exists {| coldef.User := "alice@%" |}, "alice", "%", [].
  split; [reflexivity|]. split; vm_compute; reflexivity.
Qed.

(** GRANT SELECT ON tbl TO alice@% on the sample catalog. *)
Lemma table_scope_grant_is_a_no_op_witness :
  Exec (defs := sample.defs)
    (sample.grant [sample.SelectPriv] (sample.onTable "" "tbl") ["alice@%"])
    sample.ctx0
  = (Ok tt, sample.ctx0).
Proof.
  apply (table_scope_grant_is_a_no_op (defs := sample.defs) _ _
           (sample.onTable "" "tbl")).
  - reflexivity.
  - reflexivity.
  - repeat constructor. apply principal_exists_alice.
Defined.

(** C10, counterexample. A request with an unknown grant level and no
    privilege, to a principal that is not in the user table: [Exec] does
    not succeed, it fails with "Unknown user". *)
Lemma unknown_level_without_privileges_unknown_principal :
  Level (sample.grant [] (sample.onOther 9) ["ghost@%"])
  = Some (sample.onOther 9) /\
  coldef.Level (sample.onOther 9) = coldef.GrantLevelOther 9 /\
  Privs (sample.grant [] (sample.onOther 9) ["ghost@%"]) = [] /\
  Exec (defs := sample.defs) (sample.grant [] (sample.onOther 9) ["ghost@%"])
       sample.ctx0
  = (Err (ErrUnknownUser "ghost@%"), sample.ctx0).
Proof. repeat split. Qed.

Lemma unknown_level_without_privileges_witness :
  (Exec (defs := sample.defs)
     (sample.grant [] (sample.onOther 9) ["alice@%"]) sample.ctx0).2
  = sample.ctx0 /\
  (forall l,
     (Exec (defs := sample.defs)
        (sample.grant [] (sample.onOther 9) ["alice@%"]) sample.ctx0).1
     <> Err (ErrUnknownGrantLevel l)) /\
  (Forall (principal_exists sample.ctx0)
     (Users (sample.grant [] (sample.onOther 9) ["alice@%"])) ->
   Exec (defs := sample.defs)
     (sample.grant [] (sample.onOther 9) ["alice@%"]) sample.ctx0
   = (Ok tt, sample.ctx0)).
Proof.
  apply (unknown_level_without_privileges (defs := sample.defs)
           (sample.grant [] (sample.onOther 9) ["alice@%"]) sample.ctx0
           (sample.onOther 9) 9);
    reflexivity.
Defined.

(** The scenario of the specification: GRANT SELECT ON db1.* TO alice@%
    inserts the row (%, alice, db1) and sets its Select_priv to "Y". *)
Example grant_select_on_db1 :
  let out := Exec (defs := sample.defs)
               (sample.grant [sample.SelectPriv] (sample.onDB "db1")
                             ["alice@%"]) sample.ctx0 in
  out.1 = Ok tt /\
  DBRows out.2 = [ <["Select_priv" := "Y"]> (default_row "%" "alice" "db1") ] /\
  UserRows out.2 = UserRows sample.ctx0.
Proof. cbv zeta. split; [|split]; vm_compute; reflexivity. Qed.

(** Granting again to the same principal on the same database runs no
    further INSERT and adds no row. *)
Example second_grant_adds_no_row :
  let s := sample.grant [sample.SelectPriv] (sample.onDB "db1") ["alice@%"] in
  let once := (Exec (defs := sample.defs) s sample.ctx0).2 in
  let twice := (Exec (defs := sample.defs) s once).2 in
  length (DBRows once) = 1%nat /\
  length (DBRows twice) = 1%nat /\
  exists upd1 upd2,
    Executed twice
    = [ InsertIntoStmt mysql.DBTable ["Host"; "User"; "DB"]
          [["%"; "alice"; "db1"]]; upd1; upd2 ] /\
    is_update upd1 /\ is_update upd2.
Proof.
  cbv zeta. split; [vm_compute; reflexivity|].
  split; [vm_compute; reflexivity|].
  eexists _, _. split; [vm_compute; reflexivity|]. split; exact I.
Qed.

(** When the store fails the scan of the database-privilege table, the
    grant at database level fails with the error of the store: no INSERT
    is attempted and nothing changes. *)
Example grant_on_unreadable_table :
  Exec (defs := sample.defs)
    (sample.grant [sample.SelectPriv] (sample.onDB "db1") ["alice@%"])
    sample.ctx_unreadable
  = (Err (ErrStore "table is not readable"), sample.ctx_unreadable).
Proof. vm_compute. reflexivity. Qed.

(** Over a store that keeps the rows of the database-privilege table
    unique, a second INSERT of the same row is refused: the error of the
    store is returned and the table holds one row. *)
Example second_insert_refused_as_duplicate :
  let once := initDBPrivEntry "alice" "%" "db1" sample.ctx_unique in
  let twice := initDBPrivEntry "alice" "%" "db1" once.2 in
  once.1 = Ok tt /\
  twice.1 = Err (ErrStore "duplicate entry") /\
  DBRows twice.2 = [default_row "%" "alice" "db1"].
Proof. cbv zeta. split; [|split]; vm_compute; reflexivity. Qed.

(** A statement whose level is [nil] panics at the switch on the level,
    once its first principal passed the existence check. *)
Example Exec_nil_level :
  Exec (defs := sample.defs)
    {| Privs := []; ObjectType := 0; Level := None;
       Users := [Some {| coldef.User := "alice@%" |}]; Text := "" |}
    sample.ctx0
  = (Panic NilDereference, sample.ctx0).
Proof. vm_compute. reflexivity. Qed.

(** A [nil] user panics at the read of its principal string, and a [nil]
    privilege element at the read of its kind. *)
Example Exec_nil_user :
  Exec (defs := sample.defs)
    {| Privs := []; ObjectType := 0; Level := Some sample.onGlobal;
       Users := [None]; Text := "" |}
    sample.ctx0
  = (Panic NilDereference, sample.ctx0).
Proof. vm_compute. reflexivity. Qed.

Example Exec_nil_privilege :
  Exec (defs := sample.defs)
    {| Privs := [None]; ObjectType := 0; Level := Some sample.onGlobal;
       Users := [Some {| coldef.User := "alice@%" |}]; Text := "" |}
    sample.ctx0
  = (Panic NilDereference, sample.ctx0).
Proof. vm_compute. reflexivity. Qed.

(** At table level no privilege element is read: a [nil] one goes
    unnoticed. *)
Example Exec_nil_privilege_at_table_level :
  Exec (defs := sample.defs)
    {| Privs := [None]; ObjectType := 0;
       Level := Some (sample.onTable "" "tbl");
       Users := [Some {| coldef.User := "alice@%" |}]; Text := "" |}
    sample.ctx0
  = (Ok tt, sample.ctx0).
Proof. vm_compute. reflexivity. Qed.

(** An unknown grant level with a privilege to grant: the error carries
    the level. *)
Example Exec_unknown_level :
  Exec (defs := sample.defs)
    (sample.grant [sample.SelectPriv] (sample.onOther 9) ["alice@%"])
    sample.ctx0
  = (Err (ErrUnknownGrantLevel (sample.onOther 9)), sample.ctx0).
Proof. vm_compute. reflexivity. Qed.

(** C6. A principal string without "@" splits into one part, and [Exec]
    panics on the index of the host part; a string with two "@" splits
    into three parts, of which [Exec] takes the first two. *)
Theorem Exec_index_fault_on_principal_without_separator :
  Split "root" "@" = ["root"] /\
  Exec (defs := sample.defs)
    (sample.grant [sample.SelectPriv] sample.onGlobal ["root"]) sample.ctx0
  = (Panic (IndexOutOfRange 1 1), sample.ctx0) /\
  Split "a@b@c" "@" = ["a"; "b"; "c"] /\
  Exec (defs := sample.defs)
    (sample.grant [sample.SelectPriv] sample.onGlobal ["a@b@c"]) sample.ctx0
  = (Err (ErrUnknownUser "a@b@c"), sample.ctx0).
Proof. repeat split. Qed.

(** C4. The named branch of [composeDBPrivUpdate] does not restrict the
    kind to the database privileges. In the sample tables the privilege to
    create users is named, is not in [mysql.AllDBPrivs], and has its column
    in the user table only; its expansion at database scope is not the
    error "Unknown priv" but the assignment of that column, the same as at
    global scope. GRANT CREATE USER ON db1.* TO alice@% therefore inserts
    the row of alice for db1 and hands to the executor an UPDATE of the
    database-privilege table on the column Create_user_priv, which that
    table does not have. *)
Theorem global_only_privilege_at_database_scope :
  sample.CreateUserPriv <> @mysql.AllPriv sample.defs /\
  (sample.CreateUserPriv ∉ @mysql.AllDBPrivs sample.defs) /\
  ("Create_user_priv" ∉ Columns sample.ctx0 mysql.DBTable) /\
  composeDBPrivUpdate (defs := sample.defs) sample.CreateUserPriv
  = Ok [assignY "Create_user_priv"] /\
  composeDBPrivUpdate (defs := sample.defs) sample.CreateUserPriv
  = composeGlobalPrivUpdate (defs := sample.defs) sample.columns
      sample.CreateUserPriv /\
  composeDBPrivUpdate (defs := sample.defs) sample.CreateUserPriv
  <> Err (ErrUnknownPriv sample.CreateUserPriv) /\
  Executed (Exec (defs := sample.defs)
              (sample.grant [sample.CreateUserPriv] (sample.onDB "db1")
                            ["alice@%"]) sample.ctx0).2
  = [ InsertIntoStmt mysql.DBTable ["Host"; "User"; "DB"]
        [["%"; "alice"; "db1"]];
      UpdateStmt mysql.DBTable [assignY "Create_user_priv"]
        (composeDBTableFilter "alice" "%" "db1") ] /\
  DBRows (Exec (defs := sample.defs)
            (sample.grant [sample.CreateUserPriv] (sample.onDB "db1")
                          ["alice@%"]) sample.ctx0).2
  = [default_row "%" "alice" "db1"].
Proof.
  split; [discriminate|]. split; [compute_done|]. split; [compute_done|].
  split; [vm_compute; reflexivity|]. split; [vm_compute; reflexivity|].
  split; [vm_compute; discriminate|].
  split; vm_compute; reflexivity.
Qed.

(* ===================================================================== *)
(** ** Further properties: the principal string *)
(* ===================================================================== *)





(* ===================================================================== *)
(** ** Further properties: filters and existence checks *)
(* ===================================================================== *)

(** X2. The filter [composeDBTableFilter] builds selects exactly the rows
    whose User, Host and DB columns hold the given name, host and
    database; a row that lacks one of the columns is not selected. *)
Theorem composeDBTableFilter_selects (name host db : string) (row : Row) :
  matches (composeDBTableFilter name host db) row = true <->
  row !! "User" = Some name /\ row !! "Host" = Some host /\
  row !! "DB" = Some db.
Proof.
  unfold matches, composeDBTableFilter, composeUserTableFilter. simpl.
  destruct (row !! "User") as [u|], (row !! "Host") as [h|],
    (row !! "DB") as [d|]; simpl;
    repeat case_bool_decide; simpl; intuition congruence.
Qed.

(** X3. [dbUserExists] leaves the context as it was and never panics. It
    answers exactly when the store lets the three calls of its scan
    through, and otherwise returns the error of the store; any answer it
    gives is right: [true] exactly when the database-privilege table holds
    a row with that user, host and database. *)
Theorem dbUserExists_finds_row (name host db : string) (ctx : Context) :
  (dbUserExists name host db ctx).2 = ctx /\
  (forall p, (dbUserExists name host db ctx).1 <> Panic p) /\
  (forall b : bool,
     (dbUserExists name host db ctx).1 = Ok b ->
     (b = true <->
      exists row : Row,
        row ∈ DBRows ctx /\ row !! "User" = Some name /\
        row !! "Host" = Some host /\ row !! "DB" = Some db)) /\
  (scan_ok mysql.DBTable (composeDBTableFilter name host db) ctx <->
   exists b : bool, (dbUserExists name host db ctx).1 = Ok b) /\
  (forall e, (dbUserExists name host db ctx).1 = Err e ->
             exists msg, e = ErrStore msg).
Proof.
  split; [apply scan_ctx|]. split; [apply scan_no_panic|].
  split; [intros b; apply dbUserExists_Ok|]. split.
  - rewrite dbUserExists_scan. split.
    + intros Hok. rewrite (scan_run _ _ _ Hok). by eexists.
    + intros [b Hb]. by apply scan_Ok in Hb as [Hok _].
  - intros e He. rewrite dbUserExists_scan in He.
    by apply scan_Err in He as [_ Hmsg].
Qed.

(* ===================================================================== *)
(** ** Further properties: the database-privilege row *)
(* ===================================================================== *)

(** X4. [initDBPrivEntry] hands one INSERT to the executor and succeeds
    exactly when the executor runs it. When it succeeds the table holds
    its former rows and the row (Host, User, DB) after them, so that a row
    is there for a user, host and database exactly when one was there
    before or they are the ones just inserted, and any answer of
    [dbUserExists] from then on says so. When it fails it returns the error
    of the store and the table holds the rows it held. *)
Theorem initDBPrivEntry_then_dbUserExists (user host db n h d : string)
    (ctx : Context) :
  Executed (initDBPrivEntry user host db ctx).2
  = Executed ctx ++ [insert_db_row host user db] /\
  ((initDBPrivEntry user host db ctx).1 = Ok tt <->
   exec_ok (insert_db_row host user db) ctx) /\
  ((initDBPrivEntry user host db ctx).1 = Ok tt ->
   DBRows (initDBPrivEntry user host db ctx).2
   = DBRows ctx ++ [default_row host user db] /\
   (has_db_row n h d (initDBPrivEntry user host db ctx).2 <->
    has_db_row n h d ctx \/ (n = user /\ h = host /\ d = db)) /\
   (forall b : bool,
      (dbUserExists n h d (initDBPrivEntry user host db ctx).2).1 = Ok b ->
      (b = true <->
       has_db_row n h d ctx \/ (n = user /\ h = host /\ d = db)))) /\
  ((initDBPrivEntry user host db ctx).1 <> Ok tt ->
   (exists msg, (initDBPrivEntry user host db ctx).1 = Err (ErrStore msg)) /\
   DBRows (initDBPrivEntry user host db ctx).2 = DBRows ctx).
Proof.
  rewrite initDBPrivEntry_run. cbn [fst snd]. unfold exec_ok.
  destruct (accepts_cases (insert_db_row host user db) ctx) as [H|[msg H]];
    rewrite H.
  - split; [reflexivity|]. split; [done|]. split; [intros _|done].
    set (ctx1 := record _ _).
    assert (Hrows : DBRows ctx1 = DBRows ctx ++ [default_row host user db])
      by reflexivity.
    split; [exact Hrows|].
    pose proof (has_db_row_insert user host db n h d ctx ctx1 Hrows) as Hiff.
    split; [exact Hiff|].
    intros b Hb. apply dbUserExists_Ok in Hb. by rewrite Hb.
  - split; [reflexivity|]. split; [done|]. split; [done|intros _].
    split; [by exists msg|reflexivity].
Qed.

(** X5. A successful [checkAndInitDBPriv] leaves a row for the user, the
    host and the resolved schema in the database-privilege table. Running
    it again from there changes nothing whatever the store answers, never
    panics, and succeeds when the store lets the lookup through. *)
Theorem checkAndInitDBPriv_idempotent (s : GrantStmt) (user host : string)
    (ctx ctx1 : Context)
    (Hrun : checkAndInitDBPriv s user host ctx = (Ok tt, ctx1)) :
  exists level db,
    Level s = Some level /\
    TargetSchema_spec level ctx = Ok db /\
    has_db_row user host (model.O (model.Name db)) ctx1 /\
    (checkAndInitDBPriv s user host ctx1).2 = ctx1 /\
    (forall p, (checkAndInitDBPriv s user host ctx1).1 <> Panic p) /\
    (scan_ok mysql.DBTable
       (composeDBTableFilter user host (model.O (model.Name db))) ctx1 ->
     checkAndInitDBPriv s user host ctx1 = (Ok tt, ctx1)).
Proof.
  destruct (Level s) as [level|] eqn:Hlevel.
  2:{ unfold checkAndInitDBPriv in Hrun.
      rewrite (bind_Panic _ _ _ _ _ (getTargetSchema_nil s ctx Hlevel))
        in Hrun. discriminate. }
  destruct (TargetSchema_spec level ctx) as [db|e|p] eqn:Hschema.
  2,3: unfold checkAndInitDBPriv in Hrun;
       pose proof (getTargetSchema_level s level ctx Hlevel) as Hs;
       rewrite Hschema in Hs;
       first [rewrite (bind_Err _ _ _ _ _ Hs) in Hrun
             |rewrite (bind_Panic _ _ _ _ _ Hs) in Hrun];
       discriminate.
  exists level, db. split; [reflexivity|]. split; [exact Hschema|].
  destruct (checkAndInitDBPriv_Ok s level user host db ctx ctx1
              Hlevel Hschema Hrun) as [Hrow Hkept].
  assert (Hschema1 : TargetSchema_spec level ctx1 = Ok db)
    by (by rewrite (TargetSchema_spec_session level ctx ctx1 Hkept)).
  destruct (checkAndInitDBPriv_present s level user host db ctx1
              Hlevel Hschema1 Hrow) as [Hctx Hok].
  split; [exact Hrow|]. split; [exact Hctx|]. split; [|exact Hok].
  intros p.
  rewrite (checkAndInitDBPriv_run s level user host db ctx1 Hlevel Hschema1).
  rewrite dbUserExists_scan. unfold mbind, M_bind.
  apply found_has_db_row in Hrow.
  destruct (scan_cases mysql.DBTable
              (composeDBTableFilter user host (model.O (model.Name db)))
              ctx1) as [[_ ->]|[_ [msg ->]]]; [|discriminate].
  rewrite Hrow. discriminate.
Qed.

(* ===================================================================== *)
(** ** Further properties: what a grant leaves alone *)
(* ===================================================================== *)

#[global] Instance tables_kept_preorder (ts : list mysql.Table) :
  PreOrder (tables_kept ts).
Proof.
  split.
  - intros ctx. by repeat split.
  - intros c1 c2 c3 [[Hc1 Hi1] H1] [[Hc2 Hi2] H2]. repeat split.
    + by rewrite Hc2.
    + by rewrite Hi2.
    + intros t Ht. by rewrite (H2 t Ht), (H1 t Ht).
Qed.

Lemma tables_kept_UpdateStmt_Exec ts t asgns where_ :
  t ∉ ts -> keeps (tables_kept ts) (UpdateStmt_Exec t asgns where_).
Proof.
  intros Ht ctx. split; [apply session_kept_UpdateStmt_Exec|].
  intros t0 Ht0. rewrite rows_UpdateStmt_Exec.
  destruct (accepts _ ctx) as [[]|e|p]; [|reflexivity..].
  destruct (decide (t0 = t)) as [->|_]; [contradiction|reflexivity].
Qed.

Lemma tables_kept_InsertIntoStmt_Exec ts t cols lists :
  t ∉ ts -> keeps (tables_kept ts) (InsertIntoStmt_Exec t cols lists).
Proof.
  intros Ht ctx. split; [apply session_kept_InsertIntoStmt_Exec|].
  intros t0 Ht0. rewrite rows_InsertIntoStmt_Exec.
  destruct (accepts _ ctx) as [[]|e|p]; [|reflexivity..].
  destruct (decide (t0 = t)) as [->|_]; [contradiction|reflexivity].
Qed.

Lemma tables_kept_rangePriv2UserCol ts :
  keeps (tables_kept ts) rangePriv2UserCol.
Proof. intros ctx. split; [by split|]. intros t _. by destruct t. Qed.

Lemma tables_kept_checkAndInitDBPriv ts s user host :
  mysql.DBTable ∉ ts -> keeps (tables_kept ts) (checkAndInitDBPriv s user host).
Proof.
  intros Ht. unfold checkAndInitDBPriv.
  apply keeps_bind; [apply _| |].
  { apply keeps_eq; [apply _|apply keeps_eq_getTargetSchema]. }
  intros db. apply keeps_bind; [apply _| |].
  { apply keeps_eq; [apply _|apply eq_dbUserExists]. }
  intros [|]; [apply keeps_ret; apply _|].
  by apply tables_kept_InsertIntoStmt_Exec.
Qed.

Section Frame.
Context {defs : mysql.defs}.

Lemma tables_kept_grantPriv ts s priv user :
  (forall level, Level s = Some level ->
     coldef.Level level = coldef.GrantLevelGlobal -> mysql.UserTable ∉ ts) ->
  (forall level, Level s = Some level ->
     coldef.Level level = coldef.GrantLevelDB -> mysql.DBTable ∉ ts) ->
  keeps (tables_kept ts) (grantPriv s priv user).
Proof.
  intros Hglobal Hdb. unfold grantPriv.
  apply keeps_bind_lift; [apply _|]. intros level Hlevel.
  apply deref_Ok in Hlevel.
  specialize (Hglobal level Hlevel). specialize (Hdb level Hlevel).
  destruct (coldef.Level level).
  - unfold grantGlobalPriv. keeps_lifts.
    apply keeps_bind; [apply _|apply tables_kept_rangePriv2UserCol|].
    intros iter. keeps_lifts.
    apply tables_kept_UpdateStmt_Exec. by apply Hglobal.
  - unfold grantDBPriv.
    apply keeps_bind; [apply _| |].
    { apply keeps_eq; [apply _|apply keeps_eq_getTargetSchema]. }
    intros db. keeps_lifts.
    apply tables_kept_UpdateStmt_Exec. by apply Hdb.
  - apply keeps_ret; apply _.
  - apply keeps_Errorf; apply _.
Qed.

Lemma tables_kept_Exec_user ts s user :
  (forall level, Level s = Some level ->
     coldef.Level level = coldef.GrantLevelGlobal -> mysql.UserTable ∉ ts) ->
  (forall level, Level s = Some level ->
     coldef.Level level = coldef.GrantLevelDB -> mysql.DBTable ∉ ts) ->
  keeps (tables_kept ts) (Exec_user s user).
Proof.
  intros Hglobal Hdb. unfold Exec_user. keeps_lifts.
  apply keeps_bind; [apply _| |].
  { apply keeps_eq; [apply _|apply eq_userExists]. }
  intros exists_. destruct (negb exists_); [apply keeps_Errorf; apply _|].
  apply keeps_bind_lift; [apply _|]. intros level Hlevel.
  apply deref_Ok in Hlevel.
  apply keeps_bind; [apply _| |].
  - destruct (coldef.Level level) eqn:Hl; try (apply keeps_ret; apply _).
    apply tables_kept_checkAndInitDBPriv. by apply (Hdb level).
  - intros _. apply keeps_forEach; [apply _|]. intros priv.
    by apply tables_kept_grantPriv.
Qed.

(** X6. Whatever its outcome and whatever the store answers, [Exec]
    leaves the current schema, the schema catalog and the table-privilege
    table as they were; unless the level is the database level it leaves
    every row of the database-privilege table as it was, and unless the
    level is the global level every row of the user table. *)
Theorem Exec_leaves_other_tables (s : GrantStmt) (ctx : Context) :
  CurrentSchema (Exec s ctx).2 = CurrentSchema ctx /\
  InfoSchema (Exec s ctx).2 = InfoSchema ctx /\
  TablePrivRows (Exec s ctx).2 = TablePrivRows ctx /\
  ((forall level, Level s = Some level ->
      coldef.Level level <> coldef.GrantLevelDB) ->
   DBRows (Exec s ctx).2 = DBRows ctx) /\
  ((forall level, Level s = Some level ->
      coldef.Level level <> coldef.GrantLevelGlobal) ->
   UserRows (Exec s ctx).2 = UserRows ctx).
Proof.
  assert (Hkept : forall ts,
    (forall level, Level s = Some level ->
       coldef.Level level = coldef.GrantLevelGlobal ->
       mysql.UserTable ∉ ts) ->
    (forall level, Level s = Some level ->
       coldef.Level level = coldef.GrantLevelDB -> mysql.DBTable ∉ ts) ->
    tables_kept ts ctx (Exec s ctx).2).
  { intros ts Hglobal Hdb. unfold Exec. apply keeps_forEach; [apply _|].
    intros user. by apply tables_kept_Exec_user. }
  assert (Hother : forall t t' : mysql.Table, t <> t' -> t ∉ [t']).
  { intros t t' Hne Hin. by apply list_elem_of_singleton in Hin. }
  assert (Hself : forall t : mysql.Table, t ∈ [t]).
  { intros t. by apply list_elem_of_singleton. }
  destruct (Hkept [mysql.TablePrivTable]) as [[Hc Hi] Ht];
    [intros _ _ _; by apply Hother..|].
  split; [exact Hc|]. split; [exact Hi|].
  split; [apply (Ht mysql.TablePrivTable), Hself|]. split.
  - intros Hl. destruct (Hkept [mysql.DBTable]) as [_ Hd];
      [intros _ _ _; by apply Hother
      |intros level Hlevel ?; by destruct (Hl level Hlevel)|].
    apply (Hd mysql.DBTable), Hself.
  - intros Hl. destruct (Hkept [mysql.UserTable]) as [_ Hu];
      [intros level Hlevel ?; by destruct (Hl level Hlevel)
      |intros _ _ _; by apply Hother|].
    apply (Hu mysql.UserTable), Hself.
Qed.

End Frame.

(* ===================================================================== *)
(** ** Further properties: panics *)
(* ===================================================================== *)

Lemma no_panic_bind_lift {A B} (r : res A) (f : A -> M B) :
  (forall p, r <> Panic p) ->
  (forall a, r = Ok a -> no_panic (f a)) -> no_panic (lift r ≫= f).
Proof.
  intros Hr Hf ctx p. destruct r as [a|e|q].
  - by apply Hf.
  - discriminate.
  - by destruct (Hr q).
Qed.

Lemma no_panic_UpdateStmt_Exec t asgns where_ :
  no_panic (UpdateStmt_Exec t asgns where_).
Proof.
  intros ctx p. rewrite UpdateStmt_Exec_run. cbn [fst].
  destruct (accepts_cases (UpdateStmt t asgns where_) ctx) as [->|[msg ->]];
    discriminate.
Qed.

Lemma no_panic_initDBPrivEntry user host db :
  no_panic (initDBPrivEntry user host db).
Proof.
  intros ctx p. rewrite initDBPrivEntry_run. cbn [fst].
  destruct (accepts_cases (insert_db_row host user db) ctx) as [->|[msg ->]];
    discriminate.
Qed.

Lemma no_panic_checkAndInitDBPriv (s : GrantStmt) user host :
  Level s <> None -> no_panic (checkAndInitDBPriv s user host).
Proof.
  intros Hlevel. unfold checkAndInitDBPriv.
  apply no_panic_bind; [by apply no_panic_getTargetSchema|]. intros db.
  apply no_panic_bind; [apply scan_no_panic|].
  intros [|]; [apply no_panic_ret|apply no_panic_initDBPrivEntry].
Qed.

Lemma Split_two_parts (s : string) (sep : ascii) :
  Count s sep <> 0%nat ->
  exists name host more, Split s sep = name :: host :: more.
Proof.
  intros Hcount. pose proof (length_Split s sep) as Hlen.
  destruct (Split s sep) as [|name [|host more]]; simpl in Hlen;
    [discriminate|lia|by eauto].
Qed.

Section Panics.
Context {defs : mysql.defs}.

Lemma composeGlobalPrivUpdate_no_panic iter priv p :
  composeGlobalPrivUpdate iter priv <> Panic p.
Proof.
  unfold composeGlobalPrivUpdate. case_decide; [discriminate|].
  destruct (mysql.Priv2UserCol !! priv); discriminate.
Qed.

Lemma composeDBPrivUpdate_no_panic priv p :
  composeDBPrivUpdate priv <> Panic p.
Proof.
  unfold composeDBPrivUpdate. case_decide.
  - rewrite composeDBPrivUpdate_loop_eq. destruct (mapM _ _); discriminate.
  - destruct (mysql.Priv2UserCol !! priv); discriminate.
Qed.

Lemma no_panic_grantPriv (s : GrantStmt) pe u :
  Level s <> None ->
  Count (coldef.User u) "@" <> 0%nat ->
  no_panic (grantPriv s (Some pe) (Some u)).
Proof.
  intros Hlevel Hcount.
  destruct (Split_two_parts _ _ Hcount) as (name & host & more & Hsplit).
  unfold grantPriv.
  destruct (Level s) as [level|] eqn:Hl; [clear Hlevel|done].
  apply no_panic_bind; [apply no_panic_lift; discriminate|]. intros level'.
  destruct (coldef.Level level').
  - unfold grantGlobalPriv.
    apply no_panic_bind; [apply no_panic_lift; discriminate|]. intros ?.
    apply no_panic_bind; [intros ctx p; discriminate|]. intros iter.
    apply no_panic_bind.
    { apply no_panic_lift, composeGlobalPrivUpdate_no_panic. }
    intros asgns.
    apply no_panic_bind_lift; [discriminate|]. intros ? [= <-].
    rewrite Hsplit.
    apply no_panic_bind; [apply no_panic_lift; discriminate|]. intros ?.
    apply no_panic_bind; [apply no_panic_lift; discriminate|]. intros ?.
    apply no_panic_UpdateStmt_Exec.
  - unfold grantDBPriv.
    apply no_panic_bind.
    { apply no_panic_getTargetSchema. by rewrite Hl. }
    intros db.
    apply no_panic_bind; [apply no_panic_lift; discriminate|]. intros ?.
    apply no_panic_bind.
    { apply no_panic_lift, composeDBPrivUpdate_no_panic. }
    intros asgns.
    apply no_panic_bind_lift; [discriminate|]. intros ? [= <-].
    rewrite Hsplit.
    apply no_panic_bind; [apply no_panic_lift; discriminate|]. intros ?.
    apply no_panic_bind; [apply no_panic_lift; discriminate|]. intros ?.
    apply no_panic_UpdateStmt_Exec.
  - apply no_panic_ret.
  - apply no_panic_Errorf.
Qed.

Lemma no_panic_Exec_user (s : GrantStmt) u :
  Level s <> None ->
  Forall (fun priv => priv <> None) (Privs s) ->
  Count (coldef.User u) "@" <> 0%nat ->
  no_panic (Exec_user s (Some u)).
Proof.
  intros Hlevel Hprivs Hcount.
  destruct (Split_two_parts _ _ Hcount) as (name & host & more & Hsplit).
  intros ctx. rewrite (Exec_user_split s u name host more ctx Hsplit).
  revert ctx.
  apply no_panic_bind; [apply scan_no_panic|].
  intros exists_. destruct (negb exists_); [apply no_panic_Errorf|].
  destruct (Level s) as [level|] eqn:Hl; [|done].
  apply no_panic_bind; [apply no_panic_lift; discriminate|]. intros level'.
  apply no_panic_bind.
  - destruct (coldef.Level level'); try apply no_panic_ret.
    apply no_panic_checkAndInitDBPriv. by rewrite Hl.
  - intros _. apply no_panic_forEach. intros priv Hpriv.
    rewrite Forall_forall in Hprivs. specialize (Hprivs priv Hpriv).
    destruct priv as [pe|]; [|done].
    apply no_panic_grantPriv; [by rewrite Hl|exact Hcount].
Qed.

(** X7. When the level of the request and each of its privilege elements
    and users is set (no [nil] pointer) and every principal string
    contains an "@", [Exec] and the functions of this file it calls raise
    no panic, whatever the level, the privileges, the catalog and the
    answers of the store: every index into the parts of a principal is in
    range and no [nil] pointer is read. *)
Theorem Exec_no_panic_with_separators (s : GrantStmt) (ctx : Context)
    (Hlevel : Level s <> None)
    (Hprivs : Forall (fun priv => priv <> None) (Privs s))
    (Hsep : Forall (fun user =>
                      exists u, user = Some u /\
                                Count (coldef.User u) "@" <> 0%nat)
                   (Users s)) :
  forall p, (Exec s ctx).1 <> Panic p.
Proof.
  intros p. revert ctx p. change (no_panic (Exec s)). unfold Exec.
  apply no_panic_forEach. intros user Huser.
  rewrite Forall_forall in Hsep.
  destruct (Hsep user Huser) as (u & -> & Hcount).
  by apply no_panic_Exec_user.
Qed.

End Panics.

(* ===================================================================== *)
(** ** Further properties: several users, and what the statement reads *)
(* ===================================================================== *)

Lemma TargetSchema_spec_DBName (l1 l2 : coldef.GrantLevel) (ctx : Context) :
  coldef.DBName l1 = coldef.DBName l2 ->
  TargetSchema_spec l1 ctx = TargetSchema_spec l2 ctx.
Proof. intros H. unfold TargetSchema_spec. by rewrite H. Qed.

Lemma option_Forall2_cases {A B} (R : A -> B -> Prop) o1 o2 :
  option_Forall2 R o1 o2 ->
  (exists a b, o1 = Some a /\ o2 = Some b /\ R a b) \/
  (o1 = None /\ o2 = None).
Proof. intros [a b H|]; [left; by exists a, b|by right]. Qed.

Lemma getTargetSchema_same_level (s1 s2 : GrantStmt) (ctx : Context) :
  option_Forall2 same_level (Level s1) (Level s2) ->
  getTargetSchema s1 ctx = getTargetSchema s2 ctx.
Proof.
  intros Hl. apply option_Forall2_cases in Hl
    as [(l1 & l2 & H1 & H2 & _ & Hdb & _)|[H1 H2]].
  - rewrite (getTargetSchema_level s1 l1), (getTargetSchema_level s2 l2)
      by assumption.
    by rewrite (TargetSchema_spec_DBName l1 l2).
  - by rewrite !getTargetSchema_nil.
Qed.

Section Reads.
Context {defs : mysql.defs}.

(** X8. A grant to the users [us1 ++ us2] is the grant to [us1] followed,
    when that succeeds, by the grant to [us2] from the context reached; a
    failure among [us1] is the outcome, the later users are not processed
    and what was done before the failure stays. *)
Theorem Exec_users_append (s : GrantStmt)
    (us1 us2 : list (option coldef.UserSpecification)) (ctx : Context) :
  Exec (with_Users s (us1 ++ us2)) ctx
  = match Exec (with_Users s us1) ctx with
    | (Ok _, ctx1) => Exec (with_Users s us2) ctx1
    | (Err e, ctx1) => (Err e, ctx1)
    | (Panic p, ctx1) => (Panic p, ctx1)
    end.
Proof.
  unfold Exec. simpl.
  change (Exec_user (with_Users s (us1 ++ us2))) with (Exec_user s).
  change (Exec_user (with_Users s us1)) with (Exec_user s).
  change (Exec_user (with_Users s us2)) with (Exec_user s).
  apply forEach_app.
Qed.

Lemma grantPriv_same_request (s1 s2 : GrantStmt) p1 p2 u (ctx : Context) :
  same_request s1 s2 -> kind p1 = kind p2 ->
  grantPriv s1 p1 u ctx = grantPriv s2 p2 u ctx.
Proof.
  intros (Hl & _ & _) Hp.
  pose proof (fun c => getTargetSchema_same_level s1 s2 c Hl) as Hschema.
  unfold grantPriv.
  apply option_Forall2_cases in Hl
    as [(l1 & l2 & H1 & H2 & Hlevel & Hdb & Htable)|[H1 H2]];
    rewrite H1, H2; [|reflexivity].
  change ((lift (deref (Some l1)) ≫= ?f) ctx) with (f l1 ctx).
  change ((lift (deref (Some l2)) ≫= ?f) ctx) with (f l2 ctx).
  cbv beta. rewrite <- Hlevel.
  destruct (coldef.Level l1) eqn:Hkind.
  - unfold grantGlobalPriv.
    destruct p1 as [pe1|], p2 as [pe2|]; try discriminate; [|reflexivity].
    injection Hp as Hp.
    change ((lift (deref (Some pe1)) ≫= ?f) ctx) with (f pe1 ctx).
    change ((lift (deref (Some pe2)) ≫= ?f) ctx) with (f pe2 ctx).
    cbv beta. by rewrite Hp.
  - unfold grantDBPriv.
    apply bind_ext; [apply Hschema|]. intros db c.
    destruct p1 as [pe1|], p2 as [pe2|]; try discriminate; [|reflexivity].
    injection Hp as Hp.
    change ((lift (deref (Some pe1)) ≫= ?f) c) with (f pe1 c).
    change ((lift (deref (Some pe2)) ≫= ?f) c) with (f pe2 c).
    cbv beta. by rewrite Hp.
  - reflexivity.
  - destruct Htable as [[]|Htable].
    destruct l1, l2. simpl in *. by subst.
Qed.

(** X9. [Exec] reads of the statement only its grant level (the level and
    the database name; the table name only to print an unknown level in
    the error), its users and the kinds of its privilege elements: two
    statements that agree on these run alike, whatever their text, object
    type and the column lists of their privilege elements. *)
Theorem Exec_reads_level_users_kinds (s1 s2 : GrantStmt) (ctx : Context)
    (Hsame : same_request s1 s2) :
  Exec s1 ctx = Exec s2 ctx.
Proof.
  pose proof Hsame as (Hl & Hu & Hp).
  unfold Exec. rewrite Hu. revert ctx.
  apply (forEach_Forall2 eq); [by apply Forall_Forall2_diag, Forall_true|].
  intros u ? ctx <-. unfold Exec_user.
  apply bind_ext; [reflexivity|]. intros user_ c0.
  apply bind_ext; [reflexivity|]. intros userName c1.
  apply bind_ext; [reflexivity|]. intros host c2.
  apply bind_ext; [reflexivity|]. intros exists_ c3.
  destruct (negb exists_); [reflexivity|].
  assert (Hprivs : forall c,
            forEach (Privs s1) (fun priv => grantPriv s1 priv u) c
            = forEach (Privs s2) (fun priv => grantPriv s2 priv u) c).
  { apply (forEach_Forall2 (fun p1 p2 => kind p1 = kind p2)).
    - apply Forall2_fmap_1. rewrite Hp.
      apply Forall2_fmap, Forall_Forall2_diag, Forall_true. reflexivity.
    - intros p1 p2 c Hpp. by apply grantPriv_same_request. }
  pose proof (fun c => getTargetSchema_same_level s1 s2 c Hl) as Hschema.
  apply option_Forall2_cases in Hl
    as [(l1 & l2 & H1 & H2 & Hlevel & Hdb & Htable)|[H1 H2]];
    rewrite H1, H2; [|reflexivity].
  change ((lift (deref (Some l1)) ≫= ?f) c3) with (f l1 c3).
  change ((lift (deref (Some l2)) ≫= ?f) c3) with (f l2 c3).
  cbv beta. rewrite <- Hlevel.
  apply bind_ext; [|intros _ c4; apply Hprivs].
  destruct (coldef.Level l1); try reflexivity.
  unfold checkAndInitDBPriv.
  apply bind_ext; [apply Hschema|reflexivity].
Qed.

End Reads.

(* ===================================================================== *)
(** ** Further properties: failures at database scope *)
(* ===================================================================== *)

Lemma getTargetSchema_Ok_spec (s : GrantStmt) level db (ctx : Context) :
  Level s = Some level ->
  (getTargetSchema s ctx).1 = Ok db -> TargetSchema_spec level ctx = Ok db.
Proof.
  intros Hlevel. by rewrite (getTargetSchema_level s level ctx Hlevel).
Qed.

Section DatabaseFailures.
Context {defs : mysql.defs}.

(** X10. A grant at database level whose schema does not resolve fails
    for its first principal, when that principal exists, with the error of
    the resolution ("Miss DB name" or "Unknown schema name"), and leaves
    the context as it was: no row is inserted and no UPDATE is run. *)
Theorem Exec_database_scope_schema_error (s : GrantStmt) (ctx : Context)
    (level : coldef.GrantLevel)
    (u : coldef.UserSpecification)
    (rest : list (option coldef.UserSpecification))
    (name host : string) (more : list string) (e : error)
    (Hlevel : Level s = Some level)
    (Hscope : coldef.Level level = coldef.GrantLevelDB)
    (Husers : Users s = Some u :: rest)
    (Hsplit : Split (coldef.User u) "@" = name :: host :: more)
    (Hexists : (userExists name host ctx).1 = Ok true)
    (Hschema : (getTargetSchema s ctx).1 = Err e) :
  Exec s ctx = (Err e, ctx).
Proof.
  rewrite (Exec_cons s (Some u) rest) by exact Husers. apply bind_Err.
  rewrite (Exec_user_known s level u name host more ctx
             Hlevel Hsplit Hexists), Hscope.
  apply bind_Err. unfold checkAndInitDBPriv. apply bind_Err.
  by apply getTargetSchema_fst.
Qed.

(** X11. Nothing is rolled back. A grant at database level to a principal
    that exists and has no row for the resolved schema, whose first
    privilege kind is not ALL and has no column, fails with "Unknown priv"
    after the row was inserted: the context it leaves is the one
    [initDBPrivEntry] made. (When the store refuses the INSERT, the error
    is that of the store, and the context is again the one
    [initDBPrivEntry] left.) *)
Theorem Exec_unknown_privilege_keeps_inserted_row
    (s : GrantStmt) (ctx : Context) (level : coldef.GrantLevel)
    (u : coldef.UserSpecification)
    (rest : list (option coldef.UserSpecification))
    (name host : string) (more : list string) (db : model.DBInfo)
    (pe : coldef.PrivElem) (privs : list (option coldef.PrivElem))
    (Hlevel : Level s = Some level)
    (Hscope : coldef.Level level = coldef.GrantLevelDB)
    (Husers : Users s = Some u :: rest)
    (Hprivs : Privs s = Some pe :: privs)
    (Hsplit : Split (coldef.User u) "@" = name :: host :: more)
    (Hexists : (userExists name host ctx).1 = Ok true)
    (Hschema : (getTargetSchema s ctx).1 = Ok db)
    (Hrow : (dbUserExists name host (model.O (model.Name db)) ctx).1
            = Ok false)
    (Hnamed : coldef.Priv pe <> mysql.AllPriv)
    (Hnone : mysql.Priv2UserCol !! coldef.Priv pe = None) :
  Exec s ctx
  = (match (initDBPrivEntry name host (model.O (model.Name db)) ctx).1 with
     | Ok _ => Err (ErrUnknownPriv (coldef.Priv pe))
     | Err e => Err e
     | Panic p => Panic p
     end,
     (initDBPrivEntry name host (model.O (model.Name db)) ctx).2).
Proof.
  pose proof (getTargetSchema_Ok_spec s level db ctx Hlevel Hschema) as Hspec.
  rewrite (Exec_cons s (Some u) rest) by exact Husers.
  assert (Hcheck : checkAndInitDBPriv s name host ctx
                   = initDBPrivEntry name host (model.O (model.Name db)) ctx).
  { rewrite (checkAndInitDBPriv_run s level name host db ctx Hlevel Hspec).
    by rewrite (bind_Ok _ _ _ _ _ (dbUserExists_fst _ _ _ _ _ Hrow)). }
  pose proof (session_kept_initDBPrivEntry name host
                (model.O (model.Name db)) ctx) as Hkept.
  assert (Hbody :
    Exec_user s (Some u) ctx
    = (match (initDBPrivEntry name host (model.O (model.Name db)) ctx).1 with
       | Ok _ => Err (ErrUnknownPriv (coldef.Priv pe))
       | Err e => Err e
       | Panic p => Panic p
       end,
       (initDBPrivEntry name host (model.O (model.Name db)) ctx).2)).
  { rewrite (Exec_user_known s level u name host more ctx
               Hlevel Hsplit Hexists), Hscope.
    destruct (initDBPrivEntry name host (model.O (model.Name db)) ctx)
      as [[[]|e|p] ctx1] eqn:Hins; cbn [fst snd] in *.
    - rewrite (bind_Ok _ _ _ _ _ Hcheck).
      rewrite Hprivs, forEach_cons. apply bind_Err.
      rewrite (grantPriv_level s level) by exact Hlevel. rewrite Hscope.
      unfold grantDBPriv.
      assert (Hs1 : getTargetSchema s ctx1 = (Ok db, ctx1)).
      { apply getTargetSchema_fst.
        by rewrite (getTargetSchema_session s ctx ctx1 Hkept). }
      rewrite (bind_Ok _ _ _ _ _ Hs1).
      change ((lift (deref (Some pe)) ≫= ?f) ctx1) with (f pe ctx1).
      cbv beta. apply bind_Err.
      unfold composeDBPrivUpdate. rewrite decide_False by exact Hnamed.
      by rewrite Hnone.
    - by apply bind_Err.
    - by apply bind_Panic. }
  destruct (initDBPrivEntry name host (model.O (model.Name db)) ctx).1
    as [[]|e|p];
    [apply bind_Err|apply bind_Err|apply bind_Panic]; exact Hbody.
Qed.

End DatabaseFailures.

(* ===================================================================== *)
(** ** Further properties: the rows an UPDATE changes *)
(* ===================================================================== *)

Lemma set_columns_assignY_lookup (cols : list string) (row : Row)
    (c : string) :
  set_columns (assignY <$> cols) row !! c
  = if decide (c ∈ cols) then Some "Y" else row !! c.
Proof.
  revert row. induction cols as [|x cols IH]; intros row.
  - rewrite decide_False by apply not_elem_of_nil. reflexivity.
  - change (set_columns (assignY <$> x :: cols) row)
      with (set_columns (assignY <$> cols) (<[x := "Y"]> row)).
    rewrite IH. destruct (decide (c ∈ cols)) as [Hin|Hout].
    + rewrite decide_True by (by right). reflexivity.
    + destruct (decide (c = x)) as [->|Hne].
      * rewrite decide_True by (by left). apply lookup_insert_eq.
      * rewrite decide_False.
        -- by apply lookup_insert_ne.
        -- intros Hin. apply elem_of_cons in Hin as [?|?]; contradiction.
Qed.

Lemma set_columns_assignY_Permutation (cols1 cols2 : list string)
    (row : Row) :
  cols1 ≡ₚ cols2 ->
  set_columns (assignY <$> cols1) row = set_columns (assignY <$> cols2) row.
Proof.
  intros Hperm. apply map_eq. intros c.
  rewrite !set_columns_assignY_lookup.
  destruct (decide (c ∈ cols1)) as [H1|H1]; rewrite Hperm in H1.
  - by rewrite decide_True.
  - by rewrite decide_False.
Qed.

(** The executor runs no statement that names a column its table does
    not have. *)
Lemma exec_ok_columns (st : Statement) (ctx : Context) :
  exec_ok st ctx ->
  Forall (fun c => c ∈ Columns ctx (target st).1) (target st).2.
Proof. unfold exec_ok, accepts. by case_decide. Qed.

Lemma UpdateStmt_Exec_Ok (t : mysql.Table) asgns where_ (ctx : Context) :
  (UpdateStmt_Exec t asgns where_ ctx).1 = Ok tt <->
  exec_ok (UpdateStmt t asgns where_) ctx.
Proof. by rewrite UpdateStmt_Exec_run. Qed.

(** What one UPDATE does, whatever the executor answers. *)
Lemma UpdateStmt_Exec_effect (t : mysql.Table) asgns where_
    (ctx : Context) (key : Row -> Prop) `{forall row, Decision (key row)} :
  (forall row, matches where_ row = true <-> key row) ->
  Executed (UpdateStmt_Exec t asgns where_ ctx).2
  = Executed ctx ++ [UpdateStmt t asgns where_] /\
  ((UpdateStmt_Exec t asgns where_ ctx).1 = Ok tt <->
   exec_ok (UpdateStmt t asgns where_) ctx) /\
  ((UpdateStmt_Exec t asgns where_ ctx).1 = Ok tt ->
   Forall (fun a => ColName a ∈ Columns ctx t) asgns /\
   rows t (UpdateStmt_Exec t asgns where_ ctx).2
   = (fun row : Row =>
        if bool_decide (key row) then set_columns asgns row else row)
     <$> rows t ctx) /\
  ((UpdateStmt_Exec t asgns where_ ctx).1 <> Ok tt ->
   (exists msg,
      (UpdateStmt_Exec t asgns where_ ctx).1 = Err (ErrStore msg)) /\
   rows t (UpdateStmt_Exec t asgns where_ ctx).2 = rows t ctx) /\
  (forall t0, t0 <> t ->
     rows t0 (UpdateStmt_Exec t asgns where_ ctx).2 = rows t0 ctx).
Proof.
  intros Hkey. split; [apply Executed_UpdateStmt_Exec|].
  split; [apply UpdateStmt_Exec_Ok|].
  split; [|split].
  - intros Hok. pose proof Hok as Hexec. apply UpdateStmt_Exec_Ok in Hexec.
    split.
    + apply exec_ok_columns in Hexec. simpl in Hexec.
      by apply Forall_fmap in Hexec.
    + rewrite rows_UpdateStmt_Exec, Hexec, decide_True by reflexivity.
      apply list_fmap_ext. intros _ row _.
      destruct (matches where_ row) eqn:Hm.
      * apply Hkey in Hm. by rewrite bool_decide_true.
      * rewrite bool_decide_false; [reflexivity|].
        intros Hk. apply Hkey in Hk. congruence.
  - intros Hno. rewrite rows_UpdateStmt_Exec.
    rewrite UpdateStmt_Exec_run in Hno |- *. cbn [fst] in *.
    destruct (accepts_cases (UpdateStmt t asgns where_) ctx)
      as [Hacc|[msg Hacc]]; rewrite Hacc in Hno |- *; [done|].
    split; [by exists msg|reflexivity].
  - intros t0 Hne. rewrite rows_UpdateStmt_Exec.
    destruct (accepts _ ctx) as [[]|e|p]; [|reflexivity..].
    by rewrite decide_False.
Qed.

Section Effects.
Context {defs : mysql.defs}.

Lemma grantDBPriv_run (s : GrantStmt) level pe u name host more db asgns
    ctx :
  Level s = Some level ->
  Split (coldef.User u) "@" = name :: host :: more ->
  TargetSchema_spec level ctx = Ok db ->
  composeDBPrivUpdate (coldef.Priv pe) = Ok asgns ->
  grantDBPriv s (Some pe) (Some u) ctx
  = UpdateStmt_Exec mysql.DBTable asgns
      (composeDBTableFilter name host (model.O (model.Name db))) ctx.
Proof.
  intros Hlevel Hsplit Hschema Hcompose. unfold grantDBPriv.
  erewrite bind_Ok
    by (by rewrite (getTargetSchema_level s level ctx Hlevel), Hschema).
  change ((lift (deref (Some pe)) ≫= ?f) ctx) with (f pe ctx). cbv beta.
  rewrite Hcompose.
  change ((lift (Ok asgns) ≫= ?f) ctx) with (f asgns ctx). cbv beta.
  change ((lift (deref (Some u)) ≫= ?f) ctx) with (f u ctx). cbv beta.
  rewrite Hsplit. reflexivity.
Qed.

Lemma grantGlobalPriv_run (s : GrantStmt) pe u name host more asgns ctx :
  Split (coldef.User u) "@" = name :: host :: more ->
  composeGlobalPrivUpdate (mapiter ctx (mapiterCount ctx)) (coldef.Priv pe)
  = Ok asgns ->
  grantGlobalPriv s (Some pe) (Some u) ctx
  = UpdateStmt_Exec mysql.UserTable asgns
      (composeUserTableFilter name host) (next_range ctx).
Proof.
  intros Hsplit Hcompose. unfold grantGlobalPriv.
  change ((lift (deref (Some pe)) ≫= ?f) ctx) with (f pe ctx). cbv beta.
  erewrite bind_Ok by reflexivity.
  rewrite Hcompose.
  change ((lift (Ok asgns) ≫= ?f) (next_range ctx))
    with (f asgns (next_range ctx)). cbv beta.
  change ((lift (deref (Some u)) ≫= ?f) (next_range ctx))
    with (f u (next_range ctx)). cbv beta.
  rewrite Hsplit. reflexivity.
Qed.

(** X12. The UPDATE of [grantDBPriv]. For a principal that splits into
    name and host, a schema that resolves and a privilege kind that
    expands, [grantDBPriv] hands one UPDATE of the database-privilege
    table to the executor and succeeds exactly when the executor runs it;
    the user table is as it was. When it succeeds, every assigned column is
    a column of the database-privilege table, the rows whose User, Host
    and DB are the name, the host and the schema get the assignments, and
    every other row of that table is as it was. When it fails, the error is
    that of the store and no row has changed. *)
Theorem grantDBPriv_updates_matching_rows
    (s : GrantStmt) (level : coldef.GrantLevel)
    (pe : coldef.PrivElem) (u : coldef.UserSpecification)
    (name host : string) (more : list string) (db : model.DBInfo)
    (asgns : list Assignment) (ctx : Context)
    (Hlevel : Level s = Some level)
    (Hsplit : Split (coldef.User u) "@" = name :: host :: more)
    (Hschema : TargetSchema_spec level ctx = Ok db)
    (Hcompose : composeDBPrivUpdate (coldef.Priv pe) = Ok asgns) :
  Executed (grantDBPriv s (Some pe) (Some u) ctx).2
  = Executed ctx
    ++ [UpdateStmt mysql.DBTable asgns
          (composeDBTableFilter name host (model.O (model.Name db)))] /\
  UserRows (grantDBPriv s (Some pe) (Some u) ctx).2 = UserRows ctx /\
  ((grantDBPriv s (Some pe) (Some u) ctx).1 = Ok tt <->
   exec_ok (UpdateStmt mysql.DBTable asgns
              (composeDBTableFilter name host (model.O (model.Name db))))
           ctx) /\
  ((grantDBPriv s (Some pe) (Some u) ctx).1 = Ok tt ->
   Forall (fun a => ColName a ∈ Columns ctx mysql.DBTable) asgns /\
   DBRows (grantDBPriv s (Some pe) (Some u) ctx).2
   = (fun row : Row =>
        if bool_decide (row !! "User" = Some name /\
                        row !! "Host" = Some host /\
                        row !! "DB" = Some (model.O (model.Name db)))
        then set_columns asgns row else row) <$> DBRows ctx) /\
  ((grantDBPriv s (Some pe) (Some u) ctx).1 <> Ok tt ->
   (exists msg,
      (grantDBPriv s (Some pe) (Some u) ctx).1 = Err (ErrStore msg)) /\
   DBRows (grantDBPriv s (Some pe) (Some u) ctx).2 = DBRows ctx).
Proof.
  rewrite (grantDBPriv_run s level pe u name host more db asgns ctx)
    by assumption.
  destruct (UpdateStmt_Exec_effect mysql.DBTable asgns
              (composeDBTableFilter name host (model.O (model.Name db))) ctx
              (fun row : Row =>
                 row !! "User" = Some name /\ row !! "Host" = Some host /\
                 row !! "DB" = Some (model.O (model.Name db))))
    as (Htrace & Hiff & Hok & Hfail & Hother).
  { intros row. apply matches_composeDBTableFilter. }
  split; [exact Htrace|].
  split; [by apply (Hother mysql.UserTable)|].
  split; [exact Hiff|]. split; [exact Hok|exact Hfail].
Qed.

(** X13. The UPDATE of [grantGlobalPriv]. For a principal that splits into
    name and host and a privilege kind that expands (for ALL, in the
    order the range over the table takes in this call), [grantGlobalPriv]
    hands one UPDATE of the user table to the executor and succeeds
    exactly when the executor runs it; the database-privilege table is as
    it was. When it succeeds, every assigned column is a column of the user
    table, the rows whose User and Host are the name and the host get the
    assignments, and every other row of that table is as it was. When it
    fails, the error is that of the store and no row has changed. *)
Theorem grantGlobalPriv_updates_matching_rows
    (s : GrantStmt) (pe : coldef.PrivElem) (u : coldef.UserSpecification)
    (name host : string) (more : list string)
    (asgns : list Assignment) (ctx : Context)
    (Hsplit : Split (coldef.User u) "@" = name :: host :: more)
    (Hcompose : composeGlobalPrivUpdate (mapiter ctx (mapiterCount ctx))
                                        (coldef.Priv pe) = Ok asgns) :
  Executed (grantGlobalPriv s (Some pe) (Some u) ctx).2
  = Executed ctx
    ++ [UpdateStmt mysql.UserTable asgns (composeUserTableFilter name host)] /\
  DBRows (grantGlobalPriv s (Some pe) (Some u) ctx).2 = DBRows ctx /\
  ((grantGlobalPriv s (Some pe) (Some u) ctx).1 = Ok tt <->
   exec_ok (UpdateStmt mysql.UserTable asgns
              (composeUserTableFilter name host)) ctx) /\
  ((grantGlobalPriv s (Some pe) (Some u) ctx).1 = Ok tt ->
   Forall (fun a => ColName a ∈ Columns ctx mysql.UserTable) asgns /\
   UserRows (grantGlobalPriv s (Some pe) (Some u) ctx).2
   = (fun row : Row =>
        if bool_decide (row !! "User" = Some name /\
                        row !! "Host" = Some host)
        then set_columns asgns row else row) <$> UserRows ctx) /\
  ((grantGlobalPriv s (Some pe) (Some u) ctx).1 <> Ok tt ->
   (exists msg,
      (grantGlobalPriv s (Some pe) (Some u) ctx).1 = Err (ErrStore msg)) /\
   UserRows (grantGlobalPriv s (Some pe) (Some u) ctx).2 = UserRows ctx).
Proof.
  rewrite (grantGlobalPriv_run s pe u name host more asgns ctx)
    by assumption.
  destruct (UpdateStmt_Exec_effect mysql.UserTable asgns
              (composeUserTableFilter name host) (next_range ctx)
              (fun row : Row =>
                 row !! "User" = Some name /\ row !! "Host" = Some host))
    as (Htrace & Hiff & Hok & Hfail & Hother).
  { intros row. apply matches_composeUserTableFilter. }
  split; [exact Htrace|].
  split; [by apply (Hother mysql.DBTable)|].
  split; [exact Hiff|]. split; [exact Hok|exact Hfail].
Qed.

(** X14. What ALL does to a row at global scope does not depend on the
    order of the range: for any two orders the range over the table may
    take, the two expansions turn a row into the same row, in which every
    column of the table holds "Y" and every other column holds what it
    held. *)
Theorem ALL_at_global_scope_same_row (iter1 iter2 : list (Z * string))
    (row : Row)
    (H1 : MapRange mysql.Priv2UserCol iter1)
    (H2 : MapRange mysql.Priv2UserCol iter2) :
  exists a1 a2,
    composeGlobalPrivUpdate iter1 mysql.AllPriv = Ok a1 /\
    composeGlobalPrivUpdate iter2 mysql.AllPriv = Ok a2 /\
    set_columns a1 row = set_columns a2 row /\
    (forall p c, mysql.Priv2UserCol !! p = Some c ->
                 set_columns a1 row !! c = Some "Y") /\
    (forall c, (forall p, mysql.Priv2UserCol !! p <> Some c) ->
               set_columns a1 row !! c = row !! c).
Proof.
  rewrite !composeGlobalPrivUpdate_All. do 2 eexists.
  split; [reflexivity|]. split; [reflexivity|].
  assert (Hfmap : forall iter : list (Z * string),
            (fun kv => assignY kv.2) <$> iter = assignY <$> iter.*2).
  { intros iter. by rewrite <- list_fmap_compose. }
  rewrite !Hfmap. unfold MapRange in *. split; [|split].
  - apply set_columns_assignY_Permutation. by rewrite H1, H2.
  - intros p c Hp. rewrite set_columns_assignY_lookup, decide_True;
      [reflexivity|].
    rewrite H1. apply list_elem_of_fmap. exists (p, c).
    split; [reflexivity|]. by apply elem_of_map_to_list.
  - intros c Hc. rewrite set_columns_assignY_lookup, decide_False;
      [reflexivity|].
    rewrite H1. intros Hin. apply list_elem_of_fmap in Hin as ([p c'] & -> & Hin).
    apply elem_of_map_to_list in Hin. by apply (Hc p).
Qed.

End Effects.

(* ===================================================================== *)
(** ** Further properties: granting again *)
(* ===================================================================== *)

#[global] Instance row_stays_preorder (name host db : string) :
  PreOrder (row_stays name host db).
Proof.
  split.
  - by intros ctx H.
  - intros c1 c2 c3 H12 H23 H. by apply H23, H12.
Qed.

Lemma set_columns_lookup_other (asgns : list Assignment) (row : Row)
    (c : string) :
  Forall (fun a => ColName a <> c) asgns ->
  set_columns asgns row !! c = row !! c.
Proof.
  revert row. induction asgns as [|a asgns IH]; intros row Hne;
    [reflexivity|].
  apply Forall_cons in Hne as [Ha Hne].
  change (set_columns (a :: asgns) row)
    with (set_columns asgns (<[ColName a := Expr a]> row)).
  rewrite IH by exact Hne. by apply lookup_insert_ne.
Qed.

Lemma row_stays_UpdateStmt_Exec name host db t asgns where_ :
  Forall (fun a => ColName a ∉ key_columns) asgns ->
  keeps (row_stays name host db) (UpdateStmt_Exec t asgns where_).
Proof.
  intros Hoff ctx (row & Hrow & Hu & Hh & Hd).
  assert (Hkey : forall c, c ∈ key_columns ->
            set_columns asgns row !! c = row !! c).
  { intros c Hc. apply set_columns_lookup_other.
    eapply Forall_impl; [exact Hoff|]. intros a Ha Heq. apply Ha. by rewrite Heq. }
  unfold has_db_row. change (DBRows ?c) with (rows mysql.DBTable c).
  rewrite rows_UpdateStmt_Exec.
  destruct (accepts _ ctx) as [[]|e|p]; try (by exists row).
  destruct (decide (mysql.DBTable = t)) as [<-|Hne]; [|by exists row].
  exists (if matches where_ row then set_columns asgns row else row).
  split.
  - apply (list_elem_of_fmap_2
             (fun row => if matches where_ row then set_columns asgns row
                         else row)), Hrow.
  - destruct (matches where_ row); [|done].
    rewrite !Hkey by (unfold key_columns; repeat constructor). done.
Qed.

Section GrantAgain.
Context {defs : mysql.defs}.

Lemma composeDBPrivUpdate_off_key (priv : PrivilegeType)
    (asgns : list Assignment) :
  privilege_columns_off_key ->
  composeDBPrivUpdate priv = Ok asgns ->
  Forall (fun a => ColName a ∉ key_columns) asgns.
Proof.
  intros Hoff. unfold composeDBPrivUpdate. case_decide.
  - rewrite composeDBPrivUpdate_loop_eq.
    destruct (mapM _ _) as [cols|] eqn:Hm; [|discriminate].
    intros [= <-]. apply mapM_Some in Hm. simpl.
    apply Forall_fmap, Forall_forall. intros c Hc.
    apply list_elem_of_lookup in Hc as [i Hi].
    destruct (Forall2_lookup_r _ _ _ _ _ Hm Hi) as (p & _ & Hp).
    by apply (Hoff p).
  - destruct (mysql.Priv2UserCol !! priv) as [col|] eqn:Hp; [|discriminate].
    intros [= <-]. repeat constructor. by apply (Hoff priv).
Qed.

Lemma row_stays_grantPriv name host db s priv u :
  privilege_columns_off_key ->
  keeps (row_stays name host db) (grantPriv s priv u).
Proof.
  intros Hoff. unfold grantPriv. keeps_lifts.
  match goal with |- context [coldef.Level ?l] => destruct (coldef.Level l) end.
  - unfold grantGlobalPriv. keeps_lifts.
    apply keeps_bind; [apply _| |].
    { intros ctx Hrow. exact Hrow. }
    intros iter. keeps_lifts.
    intros ctx (row & Hrow & Hkey). exists row. split; [|exact Hkey].
    change (DBRows ?c) with (rows mysql.DBTable c).
    rewrite rows_UpdateStmt_Exec.
    destruct (accepts _ ctx) as [[]|e|p]; exact Hrow.
  - unfold grantDBPriv.
    apply keeps_bind; [apply _| |].
    { apply keeps_eq; [apply _|apply keeps_eq_getTargetSchema]. }
    intros d.
    apply keeps_bind; [apply _|apply keeps_lift; apply _|]. intros pe.
    apply keeps_bind_lift; [apply _|]. intros asgns Hasgns.
    keeps_lifts.
    apply row_stays_UpdateStmt_Exec. by eapply composeDBPrivUpdate_off_key.
  - apply keeps_ret; apply _.
  - apply keeps_Errorf; apply _.
Qed.

(** X15. Granting again inserts nothing. When no privilege column is one
    of Host, User and DB, a grant at database level to one principal, on a
    schema that resolves, that succeeded has left in the
    database-privilege table a row for the principal and the schema;
    running the same statement again from there hands only UPDATEs to the
    executor and adds no row, whatever the store answers this time. *)
Theorem Exec_database_scope_again (s : GrantStmt) (ctx : Context)
    (level : coldef.GrantLevel)
    (u : coldef.UserSpecification) (name host : string) (more : list string)
    (db : model.DBInfo)
    (Hoff : privilege_columns_off_key)
    (Hlevel : Level s = Some level)
    (Hscope : coldef.Level level = coldef.GrantLevelDB)
    (Husers : Users s = [Some u])
    (Hsplit : Split (coldef.User u) "@" = name :: host :: more)
    (Hschema : TargetSchema_spec level ctx = Ok db)
    (Hrun : (Exec s ctx).1 = Ok tt) :
  has_db_row name host (model.O (model.Name db)) (Exec s ctx).2 /\
  updated (Exec s ctx).2 (Exec s (Exec s ctx).2).2 /\
  length (DBRows (Exec s (Exec s ctx).2).2) = length (DBRows (Exec s ctx).2).
Proof.
  rewrite !(Exec_single s (Some u)) in * by exact Husers.
  set (ctx1 := (Exec_user s (Some u) ctx).2).
  assert (Hkept : tables_kept [] ctx ctx1).
  { apply tables_kept_Exec_user; intros _ _ _ Hin;
      by apply not_elem_of_nil in Hin. }
  destruct Hkept as [Hsession _].
  assert (Hrow : has_db_row name host (model.O (model.Name db)) ctx1).
  { subst ctx1.
    destruct (userExists name host ctx).1 as [[|]|e|p] eqn:Hexists.
    2:{ by rewrite (Exec_user_unknown s u name host more ctx Hsplit Hexists)
          in Hrun. }
    2:{ by rewrite (Exec_user_store_error s u name host more e ctx
                      Hsplit Hexists) in Hrun. }
    2:{ rewrite userExists_scan in Hexists.
        by apply scan_no_panic in Hexists. }
    rewrite (Exec_user_known s level u name host more ctx
               Hlevel Hsplit Hexists), Hscope in Hrun |- *.
    unfold mbind, M_bind in Hrun |- *.
    destruct (checkAndInitDBPriv s name host ctx) as [[[]|e|p] ctxa] eqn:Hcheck;
      try discriminate.
    destruct (checkAndInitDBPriv_Ok s level name host db ctx ctxa
                Hlevel Hschema Hcheck) as [Ha _].
    refine (keeps_forEach (row_stays name host (model.O (model.Name db)))
              (Privs s) _ _ ctxa Ha).
    intros priv. by apply row_stays_grantPriv. }
  split; [exact Hrow|].
  assert (Hschema1 : TargetSchema_spec level ctx1 = Ok db)
    by (by rewrite (TargetSchema_spec_session level ctx ctx1 Hsession)).
  pose proof (Exec_user_row_present s level u name host more db ctx1
                Hlevel Hscope Hsplit Hschema1 Hrow) as Hupd.
  split; [exact Hupd|].
  destruct Hupd as [_ Hrows]. specialize (Hrows mysql.DBTable).
  apply Forall2_length in Hrows. simpl in Hrows. by rewrite Hrows.
Qed.

End GrantAgain.

(* ===================================================================== *)
(** ** Further properties: counting the statements, and ALL end to end *)
(* ===================================================================== *)

Lemma forEach_Executed_count {A} (xs : list A) (body : A -> M unit)
    (k : nat) :
  (forall x c c', body x c = (Ok tt, c') ->
     length (Executed c') = (length (Executed c) + k)%nat) ->
  forall ctx ctx', forEach xs body ctx = (Ok tt, ctx') ->
    length (Executed ctx') = (length (Executed ctx) + k * length xs)%nat.
Proof.
  intros Hbody. induction xs as [|x xs IH]; intros ctx ctx'.
  - intros [= <-]. simpl. lia.
  - rewrite forEach_cons. unfold mbind, M_bind.
    destruct (body x ctx) as [[[]|e|p] c1] eqn:Hx; try discriminate.
    intros Hrest. rewrite (IH _ _ Hrest), (Hbody _ _ _ Hx). simpl. lia.
Qed.

Section Counting.
Context {defs : mysql.defs}.

Lemma grantGlobalPriv_Ok_count (s : GrantStmt) priv u c c' :
  grantGlobalPriv s priv u c = (Ok tt, c') ->
  length (Executed c') = (length (Executed c) + 1)%nat.
Proof.
  unfold grantGlobalPriv, mbind, M_bind, rangePriv2UserCol, lift.
  destruct (deref priv) as [pe|?|?]; try discriminate.
  destruct (composeGlobalPrivUpdate _ _) as [asgns|e|p]; try discriminate.
  destruct (deref u) as [u'|?|?]; try discriminate.
  destruct (index _ 0) as [n|?|?]; try discriminate.
  destruct (index _ 1) as [h|?|?]; try discriminate.
  intros Hrun.
  assert (Hc : c' = (UpdateStmt_Exec composeUserTableRset asgns
                       (composeUserTableFilter n h) (next_range c)).2)
    by (by rewrite Hrun).
  rewrite Hc, Executed_UpdateStmt_Exec, length_app. reflexivity.
Qed.

Lemma Exec_user_global_Ok_count (s : GrantStmt) level u c c' :
  Level s = Some level ->
  coldef.Level level = coldef.GrantLevelGlobal ->
  Exec_user s u c = (Ok tt, c') ->
  length (Executed c')
  = (length (Executed c) + length (Privs s))%nat.
Proof.
  intros Hlevel Hscope Hrun.
  destruct u as [u|]; [|discriminate].
  destruct (decide (Count (coldef.User u) "@" = 0%nat)) as [Hcount|Hcount].
  { by rewrite (Exec_user_no_separator s u c Hcount) in Hrun. }
  destruct (Split_two_parts _ _ Hcount) as (name & host & more & Hsplit).
  destruct (userExists name host c).1 as [[|]|e|p] eqn:Hexists.
  - rewrite (Exec_user_known s level u name host more c
               Hlevel Hsplit Hexists), Hscope in Hrun.
    erewrite bind_Ok in Hrun by reflexivity.
    assert (Hbody : forall priv c1 c2,
              grantPriv s priv (Some u) c1 = (Ok tt, c2) ->
              length (Executed c2) = (length (Executed c1) + 1)%nat).
    { intros priv c1 c2.
      rewrite (grantPriv_level s level) by exact Hlevel. rewrite Hscope.
      apply grantGlobalPriv_Ok_count. }
    rewrite (forEach_Executed_count _ _ 1 Hbody _ _ Hrun). lia.
  - by rewrite (Exec_user_unknown s u name host more c Hsplit Hexists)
      in Hrun.
  - by rewrite (Exec_user_store_error s u name host more e c Hsplit Hexists)
      in Hrun.
  - rewrite userExists_scan in Hexists. by apply scan_no_panic in Hexists.
Qed.

(** X16. One UPDATE for each principal and privilege element. A grant at
    global level that succeeds has run as many statements as the number of
    its users times the number of its privilege elements. *)
Theorem Exec_global_scope_statement_count (s : GrantStmt)
    (level : coldef.GrantLevel) (ctx ctx' : Context)
    (Hlevel : Level s = Some level)
    (Hscope : coldef.Level level = coldef.GrantLevelGlobal)
    (Hrun : Exec s ctx = (Ok tt, ctx')) :
  length (Executed ctx')
  = (length (Executed ctx) + length (Users s) * length (Privs s))%nat.
Proof.
  unfold Exec in Hrun.
  assert (Hbody : forall u c c', Exec_user s u c = (Ok tt, c') ->
            length (Executed c')
            = (length (Executed c) + length (Privs s))%nat).
  { intros u c c'. by apply (Exec_user_global_Ok_count s level). }
  rewrite (forEach_Executed_count _ _ _ Hbody _ _ Hrun). lia.
Qed.

(** X17. ALL at database scope fails exactly when some privilege of
    [mysql.AllDBPrivs] has no column in [mysql.Priv2UserCol]; the error is
    then "Unknown db privilege" and it names ALL, not the privilege that
    has no column. *)
Theorem composeDBPrivUpdate_ALL_fails_iff :
  ((exists e, composeDBPrivUpdate mysql.AllPriv = Err e) <->
   exists p, p ∈ mysql.AllDBPrivs /\ mysql.Priv2UserCol !! p = None) /\
  (forall e, composeDBPrivUpdate mysql.AllPriv = Err e ->
             e = ErrUnknownDBPrivilege mysql.AllPriv).
Proof.
  rewrite composeDBPrivUpdate_All.
  destruct (mapM _ mysql.AllDBPrivs) as [cols|] eqn:Hm.
  - split; [|discriminate]. split; [by intros [e ?]|].
    intros Hex. apply Exists_exists, mapM_None_2 in Hex. congruence.
  - split; [|by intros e [= <-]]. split; [intros _|by eauto].
    by apply Exists_exists, mapM_None_1.
Qed.


End Counting.

(* ===================================================================== *)
(** ** The further properties on the sample catalog *)
(* ===================================================================== *)

Lemma same_request_SetText (s : GrantStmt) (text : string) :
  same_request s (SetText s text).
Proof.
  split; [|by split]. simpl.
  destruct (Level s) as [level|]; constructor.
  split; [reflexivity|]. split; [reflexivity|]. by right.
Qed.

Lemma sample_privilege_columns_off_key :
  privilege_columns_off_key (defs := sample.defs).
Proof.
  intros p col Hp. apply elem_of_list_to_map_2 in Hp.
  unfold sample.columns in Hp.
  repeat (apply elem_of_cons in Hp as [[= _ ->]|Hp]; [compute_done|]).
  by apply not_elem_of_nil in Hp.
Qed.

Lemma checkAndInitDBPriv_idempotent_witness :
  checkAndInitDBPriv (sample.grant [] (sample.onDB "db1") []) "alice" "%"
    (initDBPrivEntry "alice" "%" "db1" sample.ctx0).2
  = (Ok tt, (initDBPrivEntry "alice" "%" "db1" sample.ctx0).2).
Proof.
  destruct (checkAndInitDBPriv_idempotent
              (sample.grant [] (sample.onDB "db1") []) "alice" "%"
              sample.ctx0 (initDBPrivEntry "alice" "%" "db1" sample.ctx0).2
              eq_refl) as (level & db & _ & _ & _ & _ & _ & Hagain).
  apply Hagain. by repeat split.
Defined.

Lemma Exec_no_panic_with_separators_witness :
  (Exec (defs := sample.defs)
     (sample.grant [sample.SelectPriv] sample.onGlobal ["alice@%"])
     sample.ctx0).1 <> Panic NilDereference.
Proof.
  apply (Exec_no_panic_with_separators (defs := sample.defs)).
  - discriminate.
  - repeat constructor. discriminate.
  - repeat constructor. eexists. split; [reflexivity|]. simpl. discriminate.
Defined.

Lemma Exec_reads_level_users_kinds_witness :
  Exec (defs := sample.defs)
    (sample.grant [sample.SelectPriv] (sample.onDB "db1") ["alice@%"])
    sample.ctx0
  = Exec (defs := sample.defs)
      (SetText
         (sample.grant [sample.SelectPriv] (sample.onDB "db1") ["alice@%"])
         "GRANT SELECT ON db1.* TO alice@%")
      sample.ctx0.
Proof.
  apply (Exec_reads_level_users_kinds (defs := sample.defs)).
  apply same_request_SetText.
Defined.

(** The table name of the level is read when the level is unknown: it is
    part of the error. *)
Example Exec_unknown_level_prints_table_name :
  Exec (defs := sample.defs)
    {| Privs := [Some {| coldef.Priv := sample.SelectPriv;
                         coldef.Cols := [] |}];
       ObjectType := 0;
       Level := Some {| coldef.Level := coldef.GrantLevelOther 9;
                        coldef.DBName := ""; coldef.TableName := "t1" |};
       Users := [Some {| coldef.User := "alice@%" |}]; Text := "" |}
    sample.ctx0
  <> Exec (defs := sample.defs)
       {| Privs := [Some {| coldef.Priv := sample.SelectPriv;
                            coldef.Cols := [] |}];
          ObjectType := 0;
          Level := Some {| coldef.Level := coldef.GrantLevelOther 9;
                           coldef.DBName := ""; coldef.TableName := "t2" |};
          Users := [Some {| coldef.User := "alice@%" |}]; Text := "" |}
       sample.ctx0.
Proof. vm_compute. discriminate. Qed.

Lemma Exec_database_scope_schema_error_witness :
  Exec (defs := sample.defs)
    (sample.grant [sample.SelectPriv] (sample.onDB "") ["alice@%"])
    sample.ctx0
  = (Err ErrMissDBName, sample.ctx0).
Proof.
  apply (Exec_database_scope_schema_error (defs := sample.defs)
           (sample.grant [sample.SelectPriv] (sample.onDB "") ["alice@%"])
           sample.ctx0 (sample.onDB "") {| coldef.User := "alice@%" |} []
           "alice" "%" []);
    reflexivity.
Defined.

Lemma Exec_unknown_privilege_keeps_inserted_row_witness :
  Exec (defs := sample.defs)
    (sample.grant [99] (sample.onDB "db1") ["alice@%"]) sample.ctx0
  = (Err (ErrUnknownPriv 99),
     (initDBPrivEntry "alice" "%" "db1" sample.ctx0).2).
Proof.
  apply (Exec_unknown_privilege_keeps_inserted_row (defs := sample.defs)
           (sample.grant [99] (sample.onDB "db1") ["alice@%"])
           sample.ctx0 (sample.onDB "db1") {| coldef.User := "alice@%" |} []
           "alice" "%" [] sample.db1
           {| coldef.Priv := 99; coldef.Cols := [] |} []);
    try reflexivity.
  discriminate.
Defined.

Lemma grantDBPriv_updates_matching_rows_witness :
  (grantDBPriv (defs := sample.defs)
     (sample.grant [sample.SelectPriv] (sample.onDB "db1") ["alice@%"])
     (Some {| coldef.Priv := sample.SelectPriv; coldef.Cols := [] |})
     (Some {| coldef.User := "alice@%" |}) sample.ctx0).1 = Ok tt.
Proof.
  destruct (grantDBPriv_updates_matching_rows (defs := sample.defs)
              (sample.grant [sample.SelectPriv] (sample.onDB "db1")
                            ["alice@%"])
              (sample.onDB "db1")
              {| coldef.Priv := sample.SelectPriv; coldef.Cols := [] |}
              {| coldef.User := "alice@%" |} "alice" "%" [] sample.db1
              [assignY "Select_priv"] sample.ctx0
              eq_refl eq_refl eq_refl eq_refl) as (_ & _ & Hiff & _).
  apply Hiff. vm_compute. reflexivity.
Defined.

(** The UPDATE of a privilege that has no column in the
    database-privilege table is refused by the executor, and no row
    changes. *)
Example grantDBPriv_refused_for_missing_column :
  let out := grantDBPriv (defs := sample.defs)
               (sample.grant [sample.CreateUserPriv] (sample.onDB "db1")
                             ["alice@%"])
               (Some {| coldef.Priv := sample.CreateUserPriv;
                        coldef.Cols := [] |})
               (Some {| coldef.User := "alice@%" |})
               (initDBPrivEntry "alice" "%" "db1" sample.ctx0).2 in
  out.1 = Err (ErrStore "unknown column") /\
  DBRows out.2 = [default_row "%" "alice" "db1"].
Proof. cbv zeta. split; vm_compute; reflexivity. Qed.

Lemma grantGlobalPriv_updates_matching_rows_witness :
  (grantGlobalPriv (defs := sample.defs)
     (sample.grant [sample.SelectPriv] sample.onGlobal ["bob@localhost"])
     (Some {| coldef.Priv := sample.SelectPriv; coldef.Cols := [] |})
     (Some {| coldef.User := "bob@localhost" |}) sample.ctx0).1 = Ok tt.
Proof.
  destruct (grantGlobalPriv_updates_matching_rows (defs := sample.defs)
              (sample.grant [sample.SelectPriv] sample.onGlobal
                            ["bob@localhost"])
              {| coldef.Priv := sample.SelectPriv; coldef.Cols := [] |}
              {| coldef.User := "bob@localhost" |} "bob" "localhost" []
              [assignY "Select_priv"] sample.ctx0
              eq_refl eq_refl) as (_ & _ & Hiff & _).
  apply Hiff. vm_compute. reflexivity.
Defined.

Lemma ALL_at_global_scope_same_row_witness :
  exists a1 a2,
    composeGlobalPrivUpdate (defs := sample.defs) sample.columns
                            sample.AllPriv = Ok a1 /\
    composeGlobalPrivUpdate (defs := sample.defs) (reverse sample.columns)
                            sample.AllPriv = Ok a2 /\
    set_columns a1 (sample.user_row "bob" "localhost")
    = set_columns a2 (sample.user_row "bob" "localhost").
Proof.
  destruct (ALL_at_global_scope_same_row (defs := sample.defs)
              sample.columns (reverse sample.columns)
              (sample.user_row "bob" "localhost")
              MapRange_sample_columns MapRange_sample_columns_reverse)
    as (a1 & a2 & H1 & H2 & Hsame & _).
  exists a1, a2. by repeat split.
Defined.

Lemma Exec_database_scope_again_witness :
  updated
    (Exec (defs := sample.defs)
       (sample.grant [sample.SelectPriv] (sample.onDB "db1") ["alice@%"])
       sample.ctx0).2
    (Exec (defs := sample.defs)
       (sample.grant [sample.SelectPriv] (sample.onDB "db1") ["alice@%"])
       (Exec (defs := sample.defs)
          (sample.grant [sample.SelectPriv] (sample.onDB "db1") ["alice@%"])
          sample.ctx0).2).2.
Proof.
  destruct (Exec_database_scope_again (defs := sample.defs)
              (sample.grant [sample.SelectPriv] (sample.onDB "db1")
                            ["alice@%"])
              sample.ctx0 (sample.onDB "db1") {| coldef.User := "alice@%" |}
              "alice" "%" [] sample.db1 sample_privilege_columns_off_key
              eq_refl eq_refl eq_refl eq_refl eq_refl)
    as (_ & Hupd & _).
  - vm_compute. reflexivity.
  - exact Hupd.
Defined.

Lemma Exec_global_scope_statement_count_witness :
  length (Executed
            (Exec (defs := sample.defs)
               (sample.grant [sample.SelectPriv; sample.InsertPriv]
                             sample.onGlobal ["alice@%"; "bob@localhost"])
               sample.ctx0).2)
  = (length (Executed sample.ctx0) + 2 * 2)%nat.
Proof.
  apply (Exec_global_scope_statement_count (defs := sample.defs)
           (sample.grant [sample.SelectPriv; sample.InsertPriv]
                         sample.onGlobal ["alice@%"; "bob@localhost"])
           sample.onGlobal).
  - reflexivity.
  - reflexivity.
  - vm_compute. reflexivity.
Defined.


(** The scenario of the specification: GRANT ALL ON *.* TO bob@localhost
    sets every privilege column of the row of bob to "Y" and touches no
    other row. *)
Example grant_all_to_bob :
  let out := Exec (defs := sample.defs)
               (sample.grant [sample.AllPriv] sample.onGlobal
                             ["bob@localhost"]) sample.ctx0 in
  out.1 = Ok tt /\
  UserRows out.2
  = [ sample.user_row "alice" "%";
      set_columns (assignY <$> sample.columns.*2)
                  (sample.user_row "bob" "localhost") ] /\
  DBRows out.2 = [].
Proof. cbv zeta. split; [|split]; vm_compute; reflexivity. Qed.
